(** * MapView: the Leaflet wrapper of [src/scripts/utils/map.js]

    A shallow embedding of the [Map] class: JavaScript values, the engine
    handles the class creates (tile layers, layer groups, markers, the
    layer-switcher control), the private fields of an instance, and the
    methods as functions over that state. *)

From Stdlib Require Import ZArith QArith Lia.
From stdpp Require Import base option list strings pretty gmap.

Set Default Proof Using "Type".
Set Warnings "-register-all".
Local Open Scope string_scope.
Local Open Scope Z_scope.

(** ** JavaScript values *)

Module Js.

(** Numbers are only ever passed through by the class (coordinates, zoom
    levels), never computed with; a rational stands for the finite ones and
    [VNaN] for not-a-number.  An object is its table of own properties; its
    prototype is [Object.prototype] (see [proto_members]).  [VHandle] is an
    engine object the caller made (a layer, an icon): the identity the
    engine stamps on it and its own enumerable properties. *)
Inductive val : Type :=
| VUndefined
| VNull
| VBool (b : bool)
| VNum (q : Q)
| VNaN
| VStr (s : string)
| VArr (items : list val)
| VObj (props : gmap string val)
| VFun (id : nat)
| VHandle (id : nat) (props : gmap string val).

Inductive type_tag : Type :=
| TUndefined | TObject | TBoolean | TNumber | TString | TFunction.

(** [typeof v] *)
Definition typeof (v : val) : type_tag :=
  match v with
  | VUndefined => TUndefined
  | VNull => TObject
  | VBool _ => TBoolean
  | VNum _ | VNaN => TNumber
  | VStr _ => TString
  | VArr _ | VObj _ | VHandle _ _ => TObject
  | VFun _ => TFunction
  end.

Definition is_object_tag (t : type_tag) : bool :=
  match t with TObject => true | _ => false end.

(** ToBoolean: what [if (v)], [!v], [v && w] and [c ? a : b] test. *)
Definition truthy (v : val) : bool :=
  match v with
  | VUndefined | VNull | VNaN => false
  | VBool b => b
  | VNum q => negb (Qeq_bool q 0)
  | VStr s => negb (String.eqb s EmptyString)
  | VArr _ | VObj _ | VFun _ | VHandle _ _ => true
  end.

(** [a ?? b] *)
Definition nullish (v : val) : bool :=
  match v with VUndefined | VNull => true | _ => false end.

Definition coalesce (a b : val) : val := if nullish a then b else a.

(** Names every ordinary object inherits from [Object.prototype]; each is
    bound to a function or (for [__proto__]) to an object, so reading one
    through an object that lacks it as an own property gives a truthy
    value. *)
Definition proto_members : list string :=
  [ "constructor"; "toString"; "toLocaleString"; "valueOf";
    "hasOwnProperty"; "isPrototypeOf"; "propertyIsEnumerable";
    "__proto__"; "__defineGetter__"; "__defineSetter__";
    "__lookupGetter__"; "__lookupSetter__" ].

Definition inherited (name : string) : bool :=
  bool_decide (name ∈ proto_members).

(** [name in o], for an object given by its own properties. *)
Definition has_property (o : gmap string val) (name : string) : bool :=
  bool_decide (is_Some (o !! name)) || inherited name.

(** [o.name] for the option names the class reads ([center], [locate],
    [zoom], [mapTilerKey], [content]): none is inherited, so the read is the
    own property or [undefined]. *)
Definition get (o : gmap string val) (name : string) : val :=
  default VUndefined (o !! name).

(** [{ ...a, ...b }]: later spreads win. *)
Definition spread (a b : gmap string val) : gmap string val := b ∪ a.

(** The properties [...v] copies into an object literal: the own enumerable
    properties of an object, the indexed elements of an array or a string, nothing
    for the other primitives. *)
Definition spread_props (v : val) : gmap string val :=
  match v with
  | VObj props | VHandle _ props => props
  | VArr items =>
      list_to_map (imap (fun i x => (pretty (N.of_nat i), x)) items)
  | VStr s =>
      list_to_map
        (imap (fun i c => (pretty (N.of_nat i), VStr (String c EmptyString)))
           (String.list_ascii_of_string s))
  | _ => ∅
  end.

(** The own properties [name in v] and [v.name] consult, for a value whose
    [typeof] is [object] and that is truthy. *)
Definition own_props (v : val) : gmap string val :=
  match v with
  | VObj props | VHandle _ props => props
  | _ => ∅
  end.

Definition is_nonempty_string (v : val) : bool :=
  match v with VStr s => negb (String.eqb s EmptyString) | _ => false end.

(** A structured object: a record of named properties (not [null], not an
    array, not a primitive or a function). *)
Definition is_structured (v : val) : bool :=
  match v with VObj _ | VHandle _ _ => true | _ => false end.

(** A parameter with a default, [f(p = d)]: the default stands in when the
    argument is missing or [undefined]. *)
Definition default_param (v d : val) : val :=
  match v with VUndefined => d | _ => v end.

End Js.

Import Js.

(** ** Engine handles

    The rendering engine (Leaflet) is an external collaborator.  Its factory
    functions are modelled by the handles they return: what the handle was
    built from, and the identity the engine gives each object (Leaflet stamps
    objects from one global counter).  Where the model does not follow what
    the engine does with what it is given, it says so in the outcome
    ([Unread], [accepts], [None] from [removeLayer]) and decides nothing. *)

Module Engine.

(** A tile URL as the source writes it: a plain literal, or a template
    literal whose text ends in the interpolated key. *)
Inductive Url : Type :=
| Literal (text : string)
| Keyed (before : string) (key : val).

(** The text of a URL when the interpolated key is a string (the
    string conversion of other values is not modelled). *)
Definition url_text (u : Url) : option string :=
  match u with
  | Literal s => Some s
  | Keyed before (VStr k) => Some (before +:+ k)
  | Keyed _ _ => None
  end.

(** The options literal handed to [tileLayer]; an absent field is [None]. *)
Record TileOptions : Type := mkTileOptions {
  tileSize : option Z;
  zoomOffset : option Z;
  minZoom : option Z;
  attribution : option string;
  crossOrigin : option bool
}.

(** A layer handle: a tile layer or a layer group, given by what it was
    made from, or a single layer of another kind that the caller made (a
    marker, a shape), given by its identity. *)
Inductive Layer : Type :=
| Tile (id : nat) (url : Url) (options : TileOptions)
| Group (id : nat) (members : list Layer)
| Foreign (id : nat).

Definition layer_id (l : Layer) : nat :=
  match l with Tile id _ _ | Group id _ | Foreign id => id end.

(** The tile sources a layer draws: its own, or those of its members. *)
Fixpoint tiles (l : Layer) : list (Url * TileOptions) :=
  match l with
  | Tile _ url options => [(url, options)]
  | Group _ members => List.flat_map tiles members
  | Foreign _ => []
  end.

(** Computations that draw fresh identities from the engine's counter. *)
Definition Fresh (A : Type) : Type := nat -> A * nat.

Definition ret {A} (a : A) : Fresh A := fun n => (a, n).

Definition bind {A B} (m : Fresh A) (k : A -> Fresh B) : Fresh B :=
  fun n => let '(a, n') := m n in k a n'.

(** [tileLayer(url, options)] *)
Definition tileLayer (url : Url) (options : TileOptions) : Fresh Layer :=
  fun n => (Tile n url options, S n).

(** [layerGroup(layers)] *)
Definition layerGroup (members : list Layer) : Fresh Layer :=
  fun n => (Group n members, S n).

(** A geographic point as the engine holds it ([latLng([lat, lng])]). *)
Record LatLng : Type := mkLatLng { lat : Q; lng : Q }.

(** A value of the options object given to [createMap]: a caller's value, or
    the layer list the constructor writes. *)
Inductive MapOption : Type :=
| Given (v : val)
| LayerList (layers : list Layer).

(** [control.layers(baseLayers, overlays)]: the control copies the entries of
    both tables when it is made; [addOverlay] appends to it afterwards. *)
Record Control (Table : Type) : Type := mkControl {
  control_id : nat;
  control_base : gmap string Layer;
  control_overlays : Table;
  control_added : list (Layer * string)
}.
Arguments mkControl {Table}.
Arguments control_id {Table}.
Arguments control_base {Table}.
Arguments control_overlays {Table}.
Arguments control_added {Table}.

Record Icon : Type := mkIcon {
  icon_id : nat;
  icon_options : gmap string val
}.

Record Popup : Type := mkPopup {
  popup_id : nat;
  popup_content : val
}.

Inductive MarkerOption : Type :=
| MGiven (v : val)
| MIcon (i : Icon).

Record Marker : Type := mkMarker {
  marker_id : nat;
  marker_at : val;
  marker_options : gmap string MarkerOption;
  marker_popup : option Popup
}.

(** The state of the map object behind [#map].  [view] holds the arguments
    of the last [setView], where the model can read them: it says what the
    engine was asked for, not where the map ends up (the engine clamps, pans
    by whole pixels and animates), and [None] says nothing.  [layers] are the
    identities of the layers put on the map, markers apart ([markers]);
    popups and tooltips, which the engine opens and closes with the layer
    they are bound to, are not counted.  [controls] are the identities of
    the attached controls,
    [listeners] the registrations handed to [map.on], in order (the engine
    itself ignores a repeated one). *)
Record MapState : Type := mkMapState {
  container : string;
  map_options : gmap string MapOption;
  view : option (LatLng * val);
  layers : list nat;
  controls : list nat;
  markers : list Marker;
  listeners : list (string * val)
}.

(** The layers a [layers] option names: the constructor's own list, or the
    engine objects of a caller's array (the engine throws on an item that is
    no layer; see [accepts]). *)
Definition initial_layers (o : option MapOption) : list nat :=
  match o with
  | Some (LayerList ls) => layer_id <$> ls
  | Some (Given (VArr items)) =>
      omap (fun v => match v with VHandle id _ => Some id | _ => None end) items
  | Some (Given (VHandle id _)) => [id]
  | _ => []
  end.

(** [latLng] of a caller's [center] option, for the shapes the class itself
    writes: a two-element array of numbers. *)
Definition latLng_of_val (v : val) : option LatLng :=
  match v with
  | VArr [VNum a; VNum b] => Some (mkLatLng a b)
  | _ => None
  end.

(** What the engine makes of the coordinates given to [marker] (its
    [toLatLng]): a point; no point at all ([null], and the marker is made
    all the same); an exception, when a coordinate is not a number; or a
    conversion the model does not follow (strings, objects). *)
Inductive Placement : Type :=
| Placed
| NoPoint
| InvalidLatLng
| Unread.

(** [!isNaN(v)], where the conversion to a number needs no parsing. *)
Definition as_number (v : val) : option bool :=
  match v with
  | VNum _ | VNull | VBool _ => Some true
  | VNaN | VUndefined => Some false
  | _ => None
  end.

(** [new LatLng(a, b)], which throws when [isNaN(a) || isNaN(b)]. *)
Definition pair_placement (a b : val) : Placement :=
  match as_number a, as_number b with
  | Some false, _ => InvalidLatLng
  | Some true, Some false => InvalidLatLng
  | Some true, Some true => Placed
  | _, _ => Unread
  end.

Definition placement (v : val) : Placement :=
  match v with
  | VArr (a :: rest) =>
      if is_object_tag (typeof a) then NoPoint
      else
        match rest with
        | [b] | [b; _] => pair_placement a b
        | _ => NoPoint
        end
  | VObj props =>
      if has_property props "lat" then
        pair_placement (get props "lat")
          (if has_property props "lng" then get props "lng"
           else get props "lon")
      else NoPoint
  | VHandle _ _ => Unread
  | _ => NoPoint
  end.

(** What stands behind a selector when the map is created:
    [document.querySelector] throws on a malformed selector, finds no
    element, finds one that already carries a map, or finds a free one. *)
Inductive Container : Type :=
| BadSelector
| NoElement
| Taken
| Free.

(** The options the model knows the engine to take without complaint: the
    ones the class writes or reads itself, with a numeric zoom, a centre that
    is a pair of numbers, and the constructor's own layer list.  Other
    options may be as harmless; the model does not say. *)
Definition known_options : gset string :=
  {[ "zoom"; "scrollWheelZoom"; "layers"; "center"; "locate"; "mapTilerKey" ]}.

Definition accepts (options : gmap string MapOption) : bool :=
  bool_decide (dom options ⊆ known_options)
  && match options !! "zoom" with
     | Some (Given (VNum _)) => true
     | _ => false
     end
  && match options !! "layers" with
     | Some (LayerList _) => true
     | _ => false
     end
  && match options !! "center" with
     | Some (Given c) => bool_decide (is_Some (latLng_of_val c))
     | Some (LayerList _) => false
     | None => true
     end.

(** The map [createMap(container, options)] yields when the engine accepts
    the container and the options (see [Container] and [accepts] for when it
    is known to).  The engine sets a view at creation only when it is given a
    centre and a zoom other than [undefined]. *)
Definition createMap (selector : string) (options : gmap string MapOption)
  : MapState :=
  {| container := selector;
     map_options := options;
     view :=
       match options !! "center", options !! "zoom" with
       | Some (Given c), Some (Given z) =>
           match z with
           | VUndefined => None
           | _ => (fun p => (p, z)) <$> latLng_of_val c
           end
       | _, _ => None
       end;
     layers := initial_layers (options !! "layers");
     controls := [];
     markers := [];
     listeners := [] |}.

(** [map.setView(center, zoom)] *)
Definition setView (m : MapState) (center : LatLng) (zoom : val) : MapState :=
  {| container := container m; map_options := map_options m;
     view := Some (center, zoom);
     layers := layers m; controls := controls m; markers := markers m;
     listeners := listeners m |}.

(** The identities on the map: layers and markers (a marker is a layer). *)
Definition attached (m : MapState) : list nat :=
  layers m ++ (marker_id <$> markers m).

Definition detach (m : MapState) (id : nat) : MapState :=
  {| container := container m; map_options := map_options m; view := view m;
     layers := filter (fun i => i <> id) (layers m);
     controls := controls m;
     markers := filter (fun k => marker_id k <> id) (markers m);
     listeners := listeners m |}.

(** [map.removeLayer(layer)]: by identity, a marker being a layer like any
    other; a layer that is not on the map is left alone.  Taking an attached
    group off also takes its members off, in a way that depends on the state
    of the engine: [None] there. *)
Definition removeLayer (m : MapState) (l : Layer) : option MapState :=
  match l with
  | Group id _ =>
      if bool_decide (id ∈ attached m) then None else Some m
  | Tile id _ _ | Foreign id => Some (detach m id)
  end.

Definition with_controls (m : MapState) (cs : list nat) : MapState :=
  {| container := container m; map_options := map_options m; view := view m;
     layers := layers m; controls := cs; markers := markers m;
     listeners := listeners m |}.

(** [marker.addTo(map)] *)
Definition addMarkerTo (m : MapState) (k : Marker) : MapState :=
  {| container := container m; map_options := map_options m; view := view m;
     layers := layers m; controls := controls m; markers := k :: markers m;
     listeners := listeners m |}.

(** [map.on(eventName, callback)] *)
Definition on (m : MapState) (eventName : string) (callback : val) : MapState :=
  {| container := container m; map_options := map_options m; view := view m;
     layers := layers m; controls := controls m; markers := markers m;
     listeners := listeners m ++ [(eventName, callback)] |}.

End Engine.

Import Engine.

Declare Scope fresh_scope.
Delimit Scope fresh_scope with fresh.
Notation "'let*' x ':=' m 'in' k" := (bind m (fun x => k))
  (at level 10, x name, m at level 100, k at level 200) : fresh_scope.

(** ** The class: private fields and tile-layer construction *)

Module MapView.

(** The double-quote character, for the attribution markup. *)
Definition dq : string := String (Ascii.ascii_of_nat 34) EmptyString.

Definition anchor (href text : string) : string :=
  "<a href=" +:+ dq +:+ href +:+ dq +:+ " target=" +:+ dq +:+ "_blank"
  +:+ dq +:+ ">" +:+ text +:+ "</a>".

Definition osm_attribution : string :=
  "&copy; " +:+ anchor "https://www.openstreetmap.org/copyright" "OpenStreetMap".

Definition maptiler_attribution : string :=
  anchor "https://www.maptiler.com/copyright/" "&copy; MapTiler".

Definition maptiler_osm_attribution : string :=
  maptiler_attribution +:+ " "
  +:+ anchor "https://www.openstreetmap.org/copyright"
        "&copy; OpenStreetMap contributors".

(** The lookup table of [#createMapTilerLayer]. *)
Definition styleMap : gmap string string :=
  {[ "streets" := "streets-v2"; "basic" := "basic-v2";
     "toner" := "toner-v2"; "dark" := "dark-v2" ]}.

(** [#createMapTilerLayer(style)], reading the [#mapTilerKey] field [key].
    The method is private and called with six literal style names only; for
    those, [styleMap[style] || style] is the table entry. *)
Definition createMapTilerLayer (key : val) (style : string) : Fresh Layer :=
  if String.eqb style "satellite" then
    tileLayer
      (Keyed "https://api.maptiler.com/tiles/satellite/{z}/{x}/{y}.jpg?key=" key)
      {| tileSize := Some 512; zoomOffset := Some (-1); minZoom := Some 1;
         attribution := Some maptiler_attribution; crossOrigin := Some true |}
  else if String.eqb style "hybrid" then
    (let* satelliteLayer :=
       tileLayer
         (Keyed "https://api.maptiler.com/tiles/satellite/{z}/{x}/{y}.jpg?key=" key)
         {| tileSize := Some 512; zoomOffset := Some (-1); minZoom := Some 1;
            attribution := None; crossOrigin := None |} in
     let* labelsLayer :=
       tileLayer
         (Keyed "https://api.maptiler.com/maps/streets-v2/overlay/{z}/{x}/{y}.png?key=" key)
         {| tileSize := Some 512; zoomOffset := Some (-1); minZoom := Some 1;
            attribution := Some maptiler_osm_attribution;
            crossOrigin := None |} in
     layerGroup [satelliteLayer; labelsLayer])%fresh
  else
    let actualStyle := default style (styleMap !! style) in
    tileLayer
      (Keyed ("https://api.maptiler.com/maps/" +:+ actualStyle
              +:+ "/{z}/{x}/{y}.png?key=") key)
      {| tileSize := Some 512; zoomOffset := Some (-1); minZoom := Some 1;
         attribution := Some maptiler_osm_attribution;
         crossOrigin := Some true |}.

(** *** Instance state *)

(** The [#overlays] object.  It is a plain object used as a table, so it has
    a prototype: assigning under the name [__proto__] replaces the prototype
    instead of adding an entry, and reading a name that is not an entry goes
    to the prototype. *)
Record Overlays : Type := mkOverlays {
  own : gmap string Layer;
  proto : option Layer
}.

Definition no_overlays : Overlays := {| own := ∅; proto := None |}.

(** What [this.#overlays[name]] evaluates to. *)
Inductive Read : Type :=
| ReadLayer (l : Layer)
| ReadBuiltin
| ReadUndefined
| ReadMember (holder : Layer).

Definition overlays_get (o : Overlays) (name : string) : Read :=
  if String.eqb name "__proto__" then
    match proto o with
    | Some l => ReadLayer l
    | None => ReadBuiltin
    end
  else
    match own o !! name with
    | Some l => ReadLayer l
    | None =>
        match proto o with
        | Some l => ReadMember l
        | None => if inherited name then ReadBuiltin else ReadUndefined
        end
    end.

(** [this.#overlays[name] = layer] *)
Definition overlays_set (o : Overlays) (name : string) (layer : Layer)
  : Overlays :=
  if String.eqb name "__proto__" then {| own := own o; proto := Some layer |}
  else {| own := <[name := layer]> (own o); proto := proto o |}.

(** [delete this.#overlays[name]] *)
Definition overlays_delete (o : Overlays) (name : string) : Overlays :=
  {| own := delete name (own o); proto := proto o |}.

(** The private fields after construction. *)
Record Instance : Type := mkInstance {
  zoom : val;
  map : MapState;
  baseLayers : gmap string Layer;
  overlays : Overlays;
  layerControl : Control Overlays;
  mapTilerKey : val
}.

(** [control.layers(baseLayers, overlays)], for tables whose enumeration
    gives their own entries and nothing else: tables with the prototype they
    were made with ([rebuild] does not get here otherwise). *)
Definition control_layers (base : gmap string Layer) (o : Overlays)
  : Fresh (Control Overlays) :=
  fun n => (mkControl n base o [], S n).

(** [control.addTo(map)] *)
Definition control_addTo (c : Control Overlays) (m : MapState) : MapState :=
  with_controls m (control_id c :: controls m).

(** [control.remove()] *)
Definition control_remove (c : Control Overlays) (m : MapState) : MapState :=
  with_controls m (filter (fun i => i <> control_id c) (controls m)).

(** *** Constructor *)

Definition default_key : val := VStr "DgAqexwFefbHfJBEtOke".

Definition osm_options : TileOptions :=
  {| tileSize := None; zoomOffset := None; minZoom := None;
     attribution := Some osm_attribution; crossOrigin := None |}.

(** The object literal given to [createMap], before [...options]. *)
Definition map_literal (zoom' : val) (defaultLayer : Layer)
  : gmap string MapOption :=
  {[ "zoom" := Given zoom';
     "scrollWheelZoom" := Given (VBool true);
     "layers" := LayerList [defaultLayer] ]}.

(** [this.#mapTilerKey] once the constructor has looked at the options. *)
Definition resolve_key (key0 : val) (options : gmap string val) : val :=
  if truthy (get options "mapTilerKey") then get options "mapTilerKey"
  else key0.

(** The constructor body, with the initialiser of the [#mapTilerKey] field
    ([key0]) left open. *)
Definition construct (key0 : val) (selector : string)
    (options : gmap string val) : Fresh Instance :=
  (let zoom' := coalesce (get options "zoom") (VNum 5) in
   let key := resolve_key key0 options in
   let* osmLayer :=
     tileLayer (Literal "https://tile.openstreetmap.org/{z}/{x}/{y}.png")
       osm_options in
   let* streetsLayer := createMapTilerLayer key "streets" in
   let* satelliteLayer := createMapTilerLayer key "satellite" in
   let* hybridLayer := createMapTilerLayer key "hybrid" in
   let* basicLayer := createMapTilerLayer key "basic" in
   let* tonerLayer := createMapTilerLayer key "toner" in
   let* darkLayer := createMapTilerLayer key "dark" in
   let defaultLayer := if truthy key then streetsLayer else osmLayer in
   let named : gmap string Layer :=
     {[ "Streets" := streetsLayer; "Satelit" := satelliteLayer;
        "Hybrid" := hybridLayer; "Basic" := basicLayer;
        "Toner" := tonerLayer; "Mode Gelap" := darkLayer ]} in
   let baseLayers' : gmap string Layer :=
     if negb (truthy key) then {[ "OpenStreetMap" := osmLayer ]} else named in
   let map' :=
     createMap selector
       ((Given <$> options) ∪ map_literal zoom' defaultLayer) in
   let* ctl := control_layers baseLayers' no_overlays in
   ret {| zoom := zoom';
          map := control_addTo ctl map';
          baseLayers := baseLayers';
          overlays := no_overlays;
          layerControl := ctl;
          mapTilerKey := key |})%fresh.

(** [new Map(selector, options)] *)
Definition constructor (selector : string) (options : gmap string val)
  : Fresh Instance :=
  construct default_key selector options.

(** *** Outcomes *)

(** How a call ends: it returns; it throws an error of this class, with its
    message; the engine or the page throws one of its own; or the model does
    not say what the engine does. *)
Inductive Result (A : Type) : Type :=
| Return (a : A)
| Throw (message : string)
| EngineThrew
| EngineDecides.
Arguments Return {A}.
Arguments Throw {A}.
Arguments EngineThrew {A}.
Arguments EngineDecides {A}.

(** The document: what each selector finds. *)
Definition Page : Type := string → Container.

(** [new Map(selector, options)] on a page.  A selector that finds no free
    element makes the engine throw, once the tile layers have been made. *)
Definition new_Map (page : Page) (selector : string)
    (options : gmap string val) : Fresh (Result Instance) :=
  fun n =>
    let '(i, n') := constructor selector options n in
    match page selector with
    | Free =>
        (if accepts (map_options (map i)) then Return i else EngineDecides, n')
    | BadSelector | NoElement | Taken => (EngineThrew, Nat.pred n')
    end.

(** *** Geolocation and [build] *)

(** [position.coords] *)
Record Position : Type := mkPosition { latitude : val; longitude : val }.

(** What the host does with a one-shot position query: it calls the success
    callback, calls the error callback (permission denied, position
    unavailable, timeout), or calls neither. *)
Inductive HostAnswer : Type :=
| Success (p : Position)
| Failure (error : val)
| Silent.

(** [navigator]: [None] when it has no [geolocation] member. *)
Definition Navigator : Type := option HostAnswer.

(** Why a promise is rejected, or what a [catch] caught: a value passed to
    [reject], or an exception the engine or the page raised. *)
Inductive Reason : Type :=
| Told (v : val)
| Raised.

(** A promise: resolved, rejected, still pending, or left to the engine. *)
Inductive Settled (A : Type) : Type :=
| Resolved (a : A)
| Rejected (reason : Reason)
| Pending
| Unsettled.
Arguments Resolved {A}.
Arguments Rejected {A}.
Arguments Pending {A}.
Arguments Unsettled {A}.

(** [Map.isGeolocationAvailable()] *)
Definition isGeolocationAvailable (nav : Navigator) : bool :=
  bool_decide (is_Some nav).

(** [Map.getCurrentPosition()] *)
Definition getCurrentPosition (nav : Navigator) : Settled Position :=
  if negb (isGeolocationAvailable nav) then
    Rejected (Told (VStr "Geolocation API unsupported"))
  else
    match nav with
    | Some (Success p) => Resolved p
    | Some (Failure e) => Rejected (Told e)
    | Some Silent | None => Pending
    end.

Definition jakartaCoordinate : val :=
  VArr [VNum (-62 # 10); VNum (106816666 # 1000000)].

(** The promise [build] returns, with what it handed to
    [console.error("build: error", ...)], one entry a call. *)
Record Built : Type := mkBuilt {
  outcome : Settled Instance;
  console : list Reason
}.

(** The promise of an [async] function whose last step is [new Map]. *)
Definition settle (r : Result Instance) : Settled Instance :=
  match r with
  | Return i => Resolved i
  | Throw _ | EngineThrew => Rejected Raised
  | EngineDecides => Unsettled
  end.

(** The [catch] block of [build]. *)
Definition fall_back (page : Page) (selector : string)
    (options : gmap string val) (error : Reason) : Fresh Built :=
  (let* r :=
     new_Map page selector
       (spread options {[ "center" := jakartaCoordinate ]}) in
   ret {| outcome := settle r; console := [error] |})%fresh.

(** [Map.build(selector, options)] *)
Definition build (page : Page) (nav : Navigator) (selector : string)
    (options : gmap string val) : Fresh Built :=
  if has_property options "center" && truthy (get options "center") then
    (let* r := new_Map page selector options in
     ret {| outcome := settle r; console := [] |})%fresh
  else if has_property options "locate" && truthy (get options "locate") then
    match getCurrentPosition nav with
    | Resolved position =>
        let coordinate := VArr [latitude position; longitude position] in
        fun n =>
          let '(r, n1) :=
            new_Map page selector
              (spread options {[ "center" := coordinate ]}) n in
          match r with
          | Return i => ({| outcome := Resolved i; console := [] |}, n1)
          | Throw _ | EngineThrew => fall_back page selector options Raised n1
          | EngineDecides => ({| outcome := Unsettled; console := [] |}, n1)
          end
    | Rejected error => fall_back page selector options error
    | Pending => ret {| outcome := Pending; console := [] |}
    | Unsettled => ret {| outcome := Unsettled; console := [] |}
    end
  else
    (let* r :=
       new_Map page selector
         (spread options {[ "center" := jakartaCoordinate ]}) in
     ret {| outcome := settle r; console := [] |})%fresh.

(** *** Camera *)

Definition with_map (i : Instance) (m : MapState) : Instance :=
  {| zoom := zoom i; map := m; baseLayers := baseLayers i;
     overlays := overlays i; layerControl := layerControl i;
     mapTilerKey := mapTilerKey i |}.

(** [changeCamera(coordinate, zoomLevel = null)], for a coordinate pair
    [[lat, lng]]. *)
Definition changeCamera (i : Instance) (coordinate : Q * Q) (zoomLevel : val)
  : Instance :=
  let zoomLevel := default_param zoomLevel VNull in
  if negb (truthy zoomLevel) then
    with_map i (setView (map i) (mkLatLng coordinate.1 coordinate.2) (zoom i))
  else
    with_map i (setView (map i) (mkLatLng coordinate.1 coordinate.2) zoomLevel).

(** The object [getCenter] returns. *)
Record Center : Type := mkCenter { c_latitude : Q; c_longitude : Q }.

(** [getCenter()], given what [map.getCenter()] reports (where the map is,
    which the engine decides; [None] when it throws, having no view): the
    same point under the names [latitude] and [longitude]. *)
Definition getCenter (reported : option LatLng) : option Center :=
  (fun c => {| c_latitude := lat c; c_longitude := lng c |}) <$> reported.

(** *** Icons and markers *)

(** [icon(options)] and [popup(options)]; [marker(coordinates, options)]
    where the engine makes a marker of the coordinates, that is unless their
    [placement] is [InvalidLatLng]. *)
Definition icon (options : gmap string val) : Fresh Icon :=
  fun n => (mkIcon n options, S n).

Definition marker (coordinates : val) (options : gmap string MarkerOption)
  : Fresh Marker :=
  fun n => (mkMarker n coordinates options None, S n).

(** The marker options the model knows the engine to take whatever their
    value: the two texts it copies onto the icon element.  An [icon] of the
    caller's, a pane and the like are looked at by the engine when the
    marker is put on the map. *)
Definition harmless (options : gmap string val) : bool :=
  bool_decide (dom options ⊆ ({[ "title"; "alt" ]} : gset string)).

Definition popup (content : val) : Fresh Popup :=
  fun n => (mkPopup n content, S n).

(** [marker.bindPopup(popup)] *)
Definition bindPopup (k : Marker) (p : Popup) : Marker :=
  {| marker_id := marker_id k; marker_at := marker_at k;
     marker_options := marker_options k; marker_popup := Some p |}.

Definition pair_of (a b : Z) : val := VArr [VNum (inject_Z a); VNum (inject_Z b)].

(** [Icon.Default.prototype.options], as the engine ships it. *)
Definition Icon_Default_options : gmap string val :=
  {[ "iconUrl" := VStr "marker-icon.png";
     "iconRetinaUrl" := VStr "marker-icon-2x.png";
     "shadowUrl" := VStr "marker-shadow.png";
     "iconSize" := pair_of 25 41;
     "iconAnchor" := pair_of 12 41;
     "popupAnchor" := pair_of 1 (-34);
     "tooltipAnchor" := pair_of 16 (-28);
     "shadowSize" := pair_of 41 41 ]}.

(** The three imported images, named by their module specifiers. *)
Definition markerIcon : val := VStr "leaflet/dist/images/marker-icon.png".
Definition markerIcon2x : val := VStr "leaflet/dist/images/marker-icon-2x.png".
Definition markerShadow : val := VStr "leaflet/dist/images/marker-shadow.png".

(** [createIcon(options = {})] *)
Definition createIcon (options : val) : Fresh Icon :=
  let options := default_param options (VObj ∅) in
  icon (spread
          (spread Icon_Default_options
             {[ "iconRetinaUrl" := markerIcon2x; "iconUrl" := markerIcon;
                "shadowUrl" := markerShadow ]})
          (spread_props options)).

Definition markerOptions_error : string := "markerOptions must be an object".
Definition popupOptions_error : string := "popupOptions must be an object".
Definition content_error : string :=
  "popupOptions must include `content` property".

(** The engine makes a marker of the coordinates: it has a point for them,
    or none, but no objection. *)
Definition makes_marker (coordinates : val) : bool :=
  match placement coordinates with
  | Placed | NoPoint => true
  | InvalidLatLng | Unread => false
  end.

(** The engine is known to put the marker on the map: it sits at a point
    and its options are harmless. *)
Definition accepted (coordinates markerOptions : val) : bool :=
  match placement coordinates with
  | Placed => harmless (spread_props markerOptions)
  | _ => false
  end.

(** [newMarker.addTo(this.#map); return newMarker] *)
Definition added (i : Instance) (coordinates markerOptions : val)
    (k : Marker) : Result (Marker * Instance) :=
  if accepted coordinates markerOptions
  then Return (k, with_map i (addMarkerTo (map i) k))
  else EngineDecides.

(** [addMarker(coordinates, markerOptions = {}, popupOptions = null)] *)
Definition addMarker (i : Instance) (coordinates markerOptions popupOptions : val)
  : Fresh (Result (Marker * Instance)) :=
  let markerOptions := default_param markerOptions (VObj ∅) in
  let popupOptions := default_param popupOptions VNull in
  if negb (is_object_tag (typeof markerOptions)) then
    ret (Throw markerOptions_error)
  else
    (let* defaultIcon := createIcon VUndefined in
     match placement coordinates with
     | InvalidLatLng => ret EngineThrew
     | Unread => ret EngineDecides
     | Placed | NoPoint =>
         let* newMarker :=
           marker coordinates
             ((MGiven <$> spread_props markerOptions)
              ∪ {[ "icon" := MIcon defaultIcon ]}) in
         if truthy popupOptions then
           if negb (is_object_tag (typeof popupOptions)) then
             ret (Throw popupOptions_error)
           else if negb (has_property (own_props popupOptions) "content") then
             ret (Throw content_error)
           else
             let* newPopup := popup (get (own_props popupOptions) "content") in
             ret (added i coordinates markerOptions
                    (bindPopup newMarker newPopup))
         else
           ret (added i coordinates markerOptions newMarker)
     end)%fresh.

(** *** Overlays *)

(** [layerControl.addOverlay(layer, name)] *)
Definition addOverlay (c : Control Overlays) (layer : Layer) (name : string)
  : Control Overlays :=
  {| control_id := control_id c; control_base := control_base c;
     control_overlays := control_overlays c;
     control_added := control_added c ++ [(layer, name)] |}.

(** [addOverlayLayer(name, layer)]: the layer it returns and the instance
    afterwards. *)
Definition addOverlayLayer (i : Instance) (name : string) (layer : Layer)
  : Layer * Instance :=
  (layer,
   {| zoom := zoom i; map := map i; baseLayers := baseLayers i;
      overlays := overlays_set (overlays i) name layer;
      layerControl := addOverlay (layerControl i) layer name;
      mapTilerKey := mapTilerKey i |}).

(** The body of the [if] in [removeOverlayLayer], [removed] being the layer
    the engine is told to detach (none when the value read is not a layer).
    [None]: the engine decides, either about the layer, or because the table
    has a layer for prototype, whose members the new control would enumerate
    with the entries. *)
Definition rebuild (i : Instance) (name : string) (removed : option Layer)
  : Fresh (option Instance) :=
  match
    match removed with
    | Some l => removeLayer (map i) l
    | None => Some (map i)
    end
  with
  | None => ret None
  | Some map1 =>
      let overlays' := overlays_delete (overlays i) name in
      let map2 := control_remove (layerControl i) map1 in
      match proto overlays' with
      | Some _ => ret None
      | None =>
          (let* ctl := control_layers (baseLayers i) overlays' in
           ret (Some {| zoom := zoom i; map := control_addTo ctl map2;
                        baseLayers := baseLayers i; overlays := overlays';
                        layerControl := ctl;
                        mapTilerKey := mapTilerKey i |}))%fresh
      end
  end.

(** [removeOverlayLayer(name)].  [None], the engine decides: the test read a
    member of a layer that had been installed as the prototype of
    [#overlays]; or it read [Object.prototype] itself (the name [__proto__]),
    which [removeLayer] then stamps with an identity that every later
    enumeration of an object comes across; or [rebuild] says so. *)
Definition removeOverlayLayer (i : Instance) (name : string)
  : Fresh (option Instance) :=
  match overlays_get (overlays i) name with
  | ReadLayer l => rebuild i name (Some l)
  | ReadBuiltin =>
      if String.eqb name "__proto__" then ret None else rebuild i name None
  | ReadUndefined => ret (Some i)
  | ReadMember _ => ret None
  end.

(** [addMapEventListener(eventName, callback)] *)
Definition addMapEventListener (i : Instance) (eventName : string)
    (callback : val) : Instance :=
  with_map i (on (map i) eventName callback).

End MapView.

Import MapView.

(** * Properties *)

(** ** Tile layers *)

Definition fixed_parameters (o : TileOptions) : Prop :=
  tileSize o = Some 512 ∧ zoomOffset o = Some (-1) ∧ minZoom o = Some 1.

Definition raster_template (style : string) : string :=
  "https://api.maptiler.com/maps/" +:+ style +:+ "-v2/{z}/{x}/{y}.png?key=".

Definition satellite_template : string :=
  "https://api.maptiler.com/tiles/satellite/{z}/{x}/{y}.jpg?key=".

Definition labels_template : string :=
  "https://api.maptiler.com/maps/streets-v2/overlay/{z}/{x}/{y}.png?key=".

(** The six layers the constructor asks for. *)
Definition provider_styles : list string :=
  ["streets"; "satellite"; "hybrid"; "basic"; "toner"; "dark"].

(** The options every provider layer gets, up to attribution and
    cross-origin loading. *)
Definition provider_options (a : option string) (c : option bool)
  : TileOptions :=
  {| tileSize := Some 512; zoomOffset := Some (-1); minZoom := Some 1;
     attribution := a; crossOrigin := c |}.

(** The names of the six provider base layers. *)
Definition base_names : gset string :=
  {[ "Streets"; "Satelit"; "Hybrid"; "Basic"; "Toner"; "Mode Gelap" ]}.

(** The OpenStreetMap fallback layer, made when the counter stands at [n]. *)
Definition osm_layer (n : nat) : Layer :=
  Tile n (Literal "https://tile.openstreetmap.org/{z}/{x}/{y}.png") osm_options.

(** The streets layer for a key, made when the counter stands at [n]. *)
Definition streets_layer (key : val) (n : nat) : Layer :=
  Tile n (Keyed (raster_template "streets") key)
    (provider_options (Some maptiler_osm_attribution) (Some true)).

(** The layer the constructor picks as default, it being called when the
    counter stands at [n]. *)
Definition chosen_layer (key : val) (n : nat) : Layer :=
  if truthy key then streets_layer key (S n) else osm_layer n.

(** An instance built with no options at all, the counter at nought. *)
Definition plain_instance : Instance := (constructor "#map" ∅ 0%nat).1.

Definition is_return {A} (r : Result A) : bool :=
  match r with Return _ => true | _ => false end.

(** The values that are not structured objects and yet pass a
    [typeof v !== 'object'] guard on a defaulted parameter: [null], arrays,
    and [undefined] (replaced by the default). *)
Definition loosely_object (v : val) : bool :=
  match v with VUndefined | VNull | VArr _ => true | _ => false end.

(** The centre [build] settles on, read off its decision order: the
    caller's, the host's position, or the fallback; none while the host keeps
    silent. *)
Definition settled_center (nav : Navigator) (options : gmap string val)
  : option val :=
  if truthy (get options "center") then Some (get options "center")
  else if truthy (get options "locate") then
    match nav with
    | Some (Success p) => Some (VArr [latitude p; longitude p])
    | Some Silent => None
    | Some (Failure _) | None => Some jakartaCoordinate
    end
  else Some jakartaCoordinate.

(** ** Sequences of method calls

    What a caller can do with an instance once it has one.  A call that
    throws leaves the caller with the instance it had. *)
Inductive Call : Type :=
| CallChangeCamera (coordinate : Q * Q) (zoomLevel : val)
| CallCreateIcon (options : val)
| CallAddMarker (coordinates markerOptions popupOptions : val)
| CallAddOverlayLayer (name : string) (layer : Layer)
| CallRemoveOverlayLayer (name : string)
| CallAddMapEventListener (eventName : string) (callback : val).

(** One call, on an instance and the engine's counter; [None] when the
    engine decides how [removeOverlayLayer] or [addMarker] ends. *)
Definition perform (c : Call) (s : Instance * nat) : option (Instance * nat) :=
  let '(i, n) := s in
  match c with
  | CallChangeCamera coordinate zoomLevel =>
      Some (changeCamera i coordinate zoomLevel, n)
  | CallCreateIcon options => Some (i, (createIcon options n).2)
  | CallAddMarker coordinates markerOptions popupOptions =>
      let '(r, n') := addMarker i coordinates markerOptions popupOptions n in
      match r with
      | Return (_, i') => Some (i', n')
      | Throw _ | EngineThrew => Some (i, n')
      | EngineDecides => None
      end
  | CallAddOverlayLayer name layer => Some ((addOverlayLayer i name layer).2, n)
  | CallRemoveOverlayLayer name =>
      let '(r, n') := removeOverlayLayer i name n in
      (fun i' => (i', n')) <$> r
  | CallAddMapEventListener eventName callback =>
      Some (addMapEventListener i eventName callback, n)
  end.

Fixpoint run (calls : list Call) (s : Instance * nat)
  : option (Instance * nat) :=
  match calls with
  | [] => Some s
  | c :: rest =>
      match perform c s with
      | Some s' => run rest s'
      | None => None
      end
  end.

(** The layer-switcher control of an instance is the one control on its map,
    it was made before the counter reached its present value, and it lists
    the instance's base layers. *)
Definition one_control (s : Instance * nat) : Prop :=
  controls (map s.1) = [control_id (layerControl s.1)]
  ∧ (control_id (layerControl s.1) < s.2)%nat
  ∧ control_base (layerControl s.1) = baseLayers s.1.

(** Every entry of the overlay table is offered by the control: it was there
    when the control was made, or was added to it since. *)
Definition overlays_listed (i : Instance) : Prop :=
  ∀ name l,
    own (overlays i) !! name = Some l →
    own (control_overlays (layerControl i)) !! name = Some l
    ∨ (l, name) ∈ control_added (layerControl i).

(** [map.addLayer(layer)]: what the engine does when the user ticks an
    overlay in the layer-switcher control. *)
Definition addLayer (m : MapState) (id : nat) : MapState :=
  {| container := container m; map_options := map_options m; view := view m;
     layers := id :: layers m; controls := controls m; markers := markers m;
     listeners := listeners m |}.

(** A short session: an overlay is registered, the camera moved, a marker
    with a popup added, a bad marker refused, the overlay removed. *)
Definition sample_calls : list Call :=
  [ CallAddOverlayLayer "A" (Foreign 42);
    CallChangeCamera (10 # 1, 20 # 1)%Q (VNum 12);
    CallAddMarker (VArr [VNum 10; VNum 20]) (VObj ∅)
      (VObj {[ "content" := VStr "x" ]});
    CallAddMarker (VArr [VNum 10; VNum 20]) (VStr "not-an-object") VNull;
    CallRemoveOverlayLayer "A" ].

Definition is_group (l : Layer) : bool :=
  match l with Group _ _ => true | _ => false end.

Lemma provider_options_fixed a c : fixed_parameters (provider_options a c).
Proof. by repeat split. Qed.

Section TileLayers.

Variable key : val.
Variable n : nat.

Lemma raster_layer (style : string) :
  style ∈ ["streets"; "basic"; "toner"; "dark"] →
  createMapTilerLayer key style n
  = (Tile n (Keyed (raster_template style) key)
       (provider_options (Some maptiler_osm_attribution) (Some true)), S n).
Proof.
  rewrite !elem_of_cons, elem_of_nil.
  intros [-> | [-> | [-> | [-> | []]]]]; vm_compute; reflexivity.
Qed.

Lemma satellite_layer :
  createMapTilerLayer key "satellite" n
  = (Tile n (Keyed satellite_template key)
       (provider_options (Some maptiler_attribution) (Some true)), S n).
Proof. reflexivity. Qed.

Lemma hybrid_layer :
  createMapTilerLayer key "hybrid" n
  = (Group (S (S n))
       [Tile n (Keyed satellite_template key) (provider_options None None);
        Tile (S n) (Keyed labels_template key)
          (provider_options (Some maptiler_osm_attribution) None)],
     S (S (S n))).
Proof. reflexivity. Qed.

Lemma provider_layer_parameters (style : string) :
  style ∈ provider_styles →
  Forall (fun t => fixed_parameters t.2)
    (tiles (createMapTilerLayer key style n).1).
Proof.
  unfold provider_styles. rewrite !elem_of_cons, elem_of_nil.
  intros [-> | [-> | [-> | [-> | [-> | [-> | []]]]]]];
    rewrite ?satellite_layer, ?hybrid_layer;
    rewrite ?raster_layer by (rewrite !elem_of_cons; tauto);
    cbn; repeat constructor.
Qed.

End TileLayers.

(** C9: for each of the six styles and every key, tile-layer construction
    yields the documented source: the [maps/<style>-v2] PNG template for
    streets, basic, toner and dark, the satellite JPG template for satellite,
    and for hybrid a group of the satellite layer and the labels overlay;
    the text of each URL is the template followed by the key; and every tile
    source of every such layer has tile size 512, zoom offset -1 and minimum
    zoom 1. *)
Theorem C9_tile_layer_construction (k : string) (n : nat) :
  Forall (fun style =>
      createMapTilerLayer (VStr k) style n
      = (Tile n (Keyed (raster_template style) (VStr k))
           (provider_options (Some maptiler_osm_attribution) (Some true)), S n)
      ∧ url_text (Keyed (raster_template style) (VStr k))
        = Some ("https://api.maptiler.com/maps/" +:+ style
                +:+ "-v2/{z}/{x}/{y}.png?key=" +:+ k))
    ["streets"; "basic"; "toner"; "dark"]
  ∧ (createMapTilerLayer (VStr k) "satellite" n
     = (Tile n (Keyed satellite_template (VStr k))
          (provider_options (Some maptiler_attribution) (Some true)), S n)
     ∧ url_text (Keyed satellite_template (VStr k))
       = Some ("https://api.maptiler.com/tiles/satellite/{z}/{x}/{y}.jpg?key="
               +:+ k))
  ∧ (createMapTilerLayer (VStr k) "hybrid" n
     = (Group (S (S n))
          [Tile n (Keyed satellite_template (VStr k))
             (provider_options None None);
           Tile (S n) (Keyed labels_template (VStr k))
             (provider_options (Some maptiler_osm_attribution) None)],
        S (S (S n)))
     ∧ url_text (Keyed labels_template (VStr k))
       = Some ("https://api.maptiler.com/maps/streets-v2/overlay/{z}/{x}/{y}.png?key="
               +:+ k))
  ∧ Forall (fun style =>
        Forall (fun t => fixed_parameters t.2)
          (tiles (createMapTilerLayer (VStr k) style n).1))
      provider_styles.
Proof.
  split; [| split; [| split]].
  - apply Forall_forall. intros style Hstyle.
    split; [by apply raster_layer |].
    revert Hstyle. rewrite !elem_of_cons, elem_of_nil.
    intros [-> | [-> | [-> | [-> | []]]]]; reflexivity.
  - split; [apply satellite_layer | reflexivity].
  - split; [apply hybrid_layer | reflexivity].
  - apply Forall_forall. intros style Hstyle.
    by apply provider_layer_parameters.
Qed.

(** ** Constructor *)

Ltac run_constructor :=
  unfold constructor, construct, bind, ret, tileLayer, control_layers;
  repeat (first [ rewrite satellite_layer
                | rewrite hybrid_layer
                | rewrite raster_layer by (rewrite !elem_of_cons; tauto) ];
          cbv beta iota zeta).

Section Constructor.

Variable key0 : val.
Variable selector : string.
Variable options : gmap string val.
Variable n : nat.

Let key := resolve_key key0 options.
Let zoom' := coalesce (get options "zoom") (VNum 5).
Let i := (construct key0 selector options n).1.

Lemma construct_key : mapTilerKey i = key.
Proof. subst i. by run_constructor. Qed.

Lemma construct_zoom : zoom i = zoom'.
Proof. subst i. by run_constructor. Qed.

Lemma construct_overlays : overlays i = no_overlays.
Proof. subst i. by run_constructor. Qed.

Lemma construct_control : control_base (layerControl i) = baseLayers i.
Proof. subst i. by run_constructor. Qed.

Lemma construct_map_options :
  map_options (map i)
  = (Given <$> options) ∪ map_literal zoom' (chosen_layer key n).
Proof. subst i. by run_constructor. Qed.

Lemma construct_view :
  view (map i)
  = match map_options (map i) !! "center", map_options (map i) !! "zoom" with
    | Some (Given c), Some (Given z) =>
        match z with
        | VUndefined => None
        | _ => (fun p => (p, z)) <$> latLng_of_val c
        end
    | _, _ => None
    end.
Proof. subst i. by run_constructor. Qed.

Lemma construct_layers :
  layers (map i) = initial_layers (map_options (map i) !! "layers")
  ∧ markers (map i) = [].
Proof. subst i. by run_constructor. Qed.

Lemma construct_baseLayers_keyed :
  truthy key = true →
  dom (baseLayers i) = base_names
  ∧ baseLayers i !! "Streets" = Some (streets_layer key (S n)).
Proof.
  intros Hkey. subst i. run_constructor. fold key. rewrite Hkey.
  cbn [fst snd negb baseLayers]. split.
  - rewrite !dom_insert_L, dom_singleton_L. unfold base_names. set_solver.
  - by rewrite lookup_insert_eq.
Qed.

Lemma construct_baseLayers_keyless :
  truthy key = false →
  baseLayers i = {[ "OpenStreetMap" := osm_layer n ]}.
Proof.
  intros Hkey. subst i. run_constructor. fold key. by rewrite Hkey.
Qed.

End Constructor.

Lemma size_base_names : size base_names = 6%nat.
Proof. reflexivity. Qed.

Lemma resolve_key_default (options : gmap string val) :
  truthy (resolve_key default_key options) = true.
Proof.
  unfold resolve_key.
  by destruct (truthy (get options "mapTilerKey")) eqn:Hsupplied.
Qed.

Lemma construct_active (key0 : val) (selector : string)
    (options : gmap string val) (n : nat) :
  let i := (construct key0 selector options n).1 in
  match options !! "layers" with
  | Some v => map_options (map i) !! "layers" = Some (Given v)
  | None => layers (map i)
            = [layer_id (chosen_layer (resolve_key key0 options) n)]
  end.
Proof.
  intros i. subst i.
  destruct (construct_layers key0 selector options n) as [Hlayers _].
  rewrite Hlayers.
  rewrite construct_map_options, lookup_union, lookup_fmap.
  by destruct (options !! "layers").
Qed.

(** C1, the claim as stated fails: a caller that passes its own (here
    empty) [layers] gets the six base layers and no active layer at all. *)
Lemma C1_counterexample :
  let i := (constructor "#map" {[ "layers" := VArr [] ]} 0%nat).1 in
  truthy (mapTilerKey i) = true
  ∧ size (baseLayers i) = 6%nat
  ∧ layers (map i) = [].
Proof. repeat split; reflexivity. Qed.

(** C1, amended: after the constructor body has run, whatever the initial
    value of the key field: with no key (the resolved key is falsy) the
    base-layer mapping is the single entry [OpenStreetMap], with a key it has
    exactly the six named entries; the layer-switcher control is made from
    that mapping; and the layers on the new map are the caller's when the
    configuration has a [layers] field, and otherwise the one default layer:
    the OpenStreetMap layer without a key, the streets layer with one. *)
Theorem C1_base_layers (key0 : val) (selector : string)
    (options : gmap string val) (n : nat) :
  let i := (construct key0 selector options n).1 in
  let key := resolve_key key0 options in
  mapTilerKey i = key
  ∧ control_base (layerControl i) = baseLayers i
  ∧ if truthy key then
      dom (baseLayers i) = base_names
      ∧ size (baseLayers i) = 6%nat
      ∧ baseLayers i !! "Streets" = Some (streets_layer key (S n))
      ∧ map_options (map i)
        = (Given <$> options) ∪ map_literal (zoom i) (streets_layer key (S n))
      ∧ match options !! "layers" with
        | Some v => map_options (map i) !! "layers" = Some (Given v)
        | None => layers (map i) = [layer_id (streets_layer key (S n))]
        end
    else
      baseLayers i = {[ "OpenStreetMap" := osm_layer n ]}
      ∧ size (baseLayers i) = 1%nat
      ∧ map_options (map i)
        = (Given <$> options) ∪ map_literal (zoom i) (osm_layer n)
      ∧ match options !! "layers" with
        | Some v => map_options (map i) !! "layers" = Some (Given v)
        | None => layers (map i) = [layer_id (osm_layer n)]
        end.
Proof.
  intros i key.
  pose proof (construct_map_options key0 selector options n) as Hopts.
  pose proof (construct_control key0 selector options n) as Hctl.
  pose proof (construct_active key0 selector options n) as Hactive.
  rewrite <- (construct_zoom key0 selector options n) in Hopts.
  fold i key in Hopts, Hctl, Hactive. unfold chosen_layer in Hopts, Hactive.
  split; [apply construct_key |]. split; [exact Hctl |].
  destruct (truthy key) eqn:Hkey.
  - destruct (construct_baseLayers_keyed key0 selector options n Hkey)
      as [Hdom Hstreets].
    fold i key in Hdom, Hstreets.
    repeat split; try done.
    by rewrite <- size_dom, Hdom, size_base_names.
  - pose proof (construct_baseLayers_keyless key0 selector options n Hkey)
      as Hbase.
    fold i in Hbase.
    repeat split; try done.
    by rewrite Hbase, map_size_singleton.
Qed.

(** C10, the claim as stated fails: a caller may hand over a truthy key that
    is not a string, which becomes the resolved key, and layers of its own
    (here none), which replace the streets layer on the new map. *)
Lemma C10_counterexample :
  let i := (constructor "#map"
              {[ "mapTilerKey" := VNum 42; "layers" := VArr [] ]} 0%nat).1 in
  mapTilerKey i = VNum 42
  ∧ is_nonempty_string (mapTilerKey i) = false
  ∧ size (baseLayers i) = 6%nat
  ∧ layers (map i) = [].
Proof. repeat split; reflexivity. Qed.

(** C10, amended: for every configuration the resolved key is truthy: it is
    the caller's [mapTilerKey] when that is truthy and the built-in default
    otherwise, hence a non-empty string exactly when the caller's value is
    falsy or itself a non-empty string.  The keyless branch is never taken:
    every instance has exactly the six named base layers, and the streets
    layer is the one layer on the new map unless the configuration has a
    [layers] field of its own, whose layers are on the map instead. *)
Theorem C10_key_always_present (selector : string)
    (options : gmap string val) (n : nat) :
  let i := (constructor selector options n).1 in
  let supplied := get options "mapTilerKey" in
  truthy (mapTilerKey i) = true
  ∧ mapTilerKey i = (if truthy supplied then supplied else default_key)
  ∧ is_nonempty_string (mapTilerKey i)
    = negb (truthy supplied) || is_nonempty_string supplied
  ∧ dom (baseLayers i) = base_names
  ∧ size (baseLayers i) = 6%nat
  ∧ baseLayers i !! "Streets" = Some (streets_layer (mapTilerKey i) (S n))
  ∧ map_options (map i)
    = (Given <$> options)
      ∪ map_literal (zoom i) (streets_layer (mapTilerKey i) (S n))
  ∧ match options !! "layers" with
    | Some v => map_options (map i) !! "layers" = Some (Given v)
    | None => layers (map i) = [layer_id (streets_layer (mapTilerKey i) (S n))]
    end.
Proof.
  intros i supplied.
  assert (Hkey : truthy (mapTilerKey i) = true).
  { subst i. unfold constructor. rewrite construct_key.
    apply resolve_key_default. }
  destruct (construct_baseLayers_keyed default_key selector options n Hkey)
    as [Hdom Hstreets].
  pose proof (construct_map_options default_key selector options n) as Hopts.
  pose proof (construct_active default_key selector options n) as Hactive.
  rewrite <- (construct_zoom default_key selector options n) in Hopts.
  rewrite <- (construct_key default_key selector options n)
    in Hopts, Hactive.
  fold (constructor selector options n) in Hdom, Hstreets, Hopts, Hactive.
  fold i in Hdom, Hstreets, Hopts, Hactive.
  unfold chosen_layer in Hopts, Hactive. rewrite Hkey in Hopts, Hactive.
  assert (Hsize : size (baseLayers i) = 6%nat)
    by (by rewrite <- size_dom, Hdom, size_base_names).
  assert (Hres : mapTilerKey i
                 = if truthy supplied then supplied else default_key).
  { subst i. unfold constructor. by rewrite construct_key. }
  repeat split; try done.
  rewrite Hres. by destruct (truthy supplied) eqn:Hsupplied.
Qed.

(** C6, the claim as stated fails: a caller that passes its own [layers]
    replaces the constructor's list, and the map starts with no layer. *)
Lemma C6_counterexample :
  let i := (constructor "#map" {[ "layers" := VArr [] ]} 0%nat).1 in
  map_options (map i) !! "layers" = Some (Given (VArr []))
  ∧ layers (map i) = [].
Proof. split; reflexivity. Qed.

(** C6, amended: the caller's configuration is merged last into the options
    of the engine map, so every field the caller names, [zoom] and [layers]
    included, carries the caller's value; the fields it does not name keep
    the constructor's, and the layer list is the single default (streets)
    layer exactly when the caller names no [layers]. *)
Theorem C6_caller_configuration_last (selector : string)
    (options : gmap string val) (n : nat) :
  let i := (constructor selector options n).1 in
  let default_layer := streets_layer (mapTilerKey i) (S n) in
  (∀ name,
     map_options (map i) !! name
     = match options !! name with
       | Some v => Some (Given v)
       | None => map_literal (zoom i) default_layer !! name
       end)
  ∧ map_options (map i) !! "layers"
    = match options !! "layers" with
      | Some v => Some (Given v)
      | None => Some (LayerList [default_layer])
      end
  ∧ map_options (map i) !! "zoom"
    = match options !! "zoom" with
      | Some v => Some (Given v)
      | None => Some (Given (VNum 5))
      end.
Proof.
  intros i default_layer.
  assert (Hall : ∀ name,
     map_options (map i) !! name
     = match options !! name with
       | Some v => Some (Given v)
       | None => map_literal (zoom i) default_layer !! name
       end).
  { intros name. subst i default_layer. unfold constructor.
    rewrite construct_map_options, construct_zoom, construct_key.
    unfold chosen_layer. rewrite resolve_key_default.
    rewrite lookup_union, lookup_fmap.
    destruct (options !! name) as [v |]; cbn; [| by rewrite (left_id_L None _)].
    by destruct (map_literal _ _ !! name). }
  split; [exact Hall |]. split.
  - rewrite Hall. by destruct (options !! "layers").
  - rewrite Hall. destruct (options !! "zoom") as [v |] eqn:Hzoom; [done |].
    subst i. unfold constructor. rewrite construct_zoom.
    unfold get. by rewrite Hzoom.
Qed.

(** ** Building with geolocation *)

Lemma unsupported_is_failure :
  getCurrentPosition None
  = Rejected (Told (VStr "Geolocation API unsupported")).
Proof. reflexivity. Qed.

Lemma host_error_is_failure (e : val) :
  getCurrentPosition (Some (Failure e)) = Rejected (Told e).
Proof. reflexivity. Qed.

Lemma host_position_resolves (p : Position) :
  getCurrentPosition (Some (Success p)) = Resolved p.
Proof. reflexivity. Qed.

Lemma host_silence_is_pending : getCurrentPosition (Some Silent) = Pending.
Proof. reflexivity. Qed.

Lemma getCurrentPosition_settles (nav : Navigator) :
  getCurrentPosition nav ≠ Unsettled
  ∧ getCurrentPosition nav ≠ Rejected Raised.
Proof. by destruct nav as [[p | e |] |]. Qed.

Lemma truthy_get_has_property (o : gmap string val) (name : string) :
  truthy (get o name) = true → has_property o name = true.
Proof.
  unfold get, has_property. destruct (o !! name) as [v |] eqn:Hlookup; [| done].
  intros _. apply orb_true_iff. left. apply bool_decide_eq_true. by eexists.
Qed.

Lemma constructor_option (selector : string) (options : gmap string val)
    (n : nat) (name : string) :
  map_options (map (constructor selector options n).1) !! name
  = match options !! name with
    | Some v => Some (Given v)
    | None =>
        map_literal (coalesce (get options "zoom") (VNum 5))
          (streets_layer (resolve_key default_key options) (S n)) !! name
    end.
Proof.
  unfold constructor. rewrite construct_map_options.
  unfold chosen_layer. rewrite resolve_key_default.
  rewrite lookup_union, lookup_fmap.
  destruct (options !! name) as [v |]; cbn; [| by rewrite (left_id_L None _)].
  by destruct (map_literal _ _ !! name).
Qed.

Lemma lookup_with_center (options : gmap string val) (c : val)
    (name : string) :
  spread options {[ "center" := c ]} !! name
  = if decide (name = "center") then Some c else options !! name.
Proof.
  unfold spread. rewrite lookup_union.
  destruct (decide (name = "center")) as [-> | Hname].
  - rewrite lookup_singleton_eq. by destruct (options !! "center").
  - rewrite lookup_singleton_ne by done. by rewrite (left_id_L None _).
Qed.

Lemma constructor_with_center (selector : string)
    (options : gmap string val) (c : val) (n : nat) :
  let i := (constructor selector (spread options {[ "center" := c ]}) n).1 in
  map_options (map i) !! "center" = Some (Given c)
  ∧ (∀ name, name ≠ "center" →
       map_options (map i) !! name
       = map_options (map (constructor selector options n).1) !! name)
  ∧ zoom i = zoom (constructor selector options n).1
  ∧ mapTilerKey i = mapTilerKey (constructor selector options n).1
  ∧ baseLayers i = baseLayers (constructor selector options n).1.
Proof.
  intros i.
  assert (Hget : ∀ name, name ≠ "center" →
            get (spread options {[ "center" := c ]}) name = get options name).
  { intros name Hname. unfold get. rewrite lookup_with_center.
    by destruct (decide (name = "center")). }
  assert (Hkey : resolve_key default_key (spread options {[ "center" := c ]})
                 = resolve_key default_key options).
  { unfold resolve_key. by rewrite Hget. }
  split; [| split; [| split; [| split]]].
  - subst i. rewrite constructor_option, lookup_with_center.
    by destruct (decide ("center" = "center")).
  - intros name Hname. subst i. rewrite !constructor_option.
    rewrite lookup_with_center, Hkey, Hget by done.
    by destruct (decide (name = "center")).
  - subst i. unfold constructor. rewrite !construct_zoom. by rewrite Hget.
  - subst i. unfold constructor. rewrite !construct_key. exact Hkey.
  - subst i. unfold constructor. run_constructor. by rewrite Hkey.
Qed.

Lemma new_Map_accepted (page : Page) (selector : string)
    (options : gmap string val) (n : nat) :
  page selector = Free →
  accepts (map_options (map (constructor selector options n).1)) = true →
  new_Map page selector options n
  = (Return (constructor selector options n).1,
     (constructor selector options n).2).
Proof.
  intros Hpage Haccepts. unfold new_Map.
  destruct (constructor selector options n) as [i n'].
  cbn [fst snd] in *. by rewrite Hpage, Haccepts.
Qed.

Lemma new_Map_never_throws_own (page : Page) (selector : string)
    (options : gmap string val) (n : nat) (message : string) :
  (new_Map page selector options n).1 ≠ Throw message.
Proof.
  unfold new_Map. destruct (constructor selector options n) as [i n'].
  destruct (page selector); cbn; try done.
  by destruct (accepts _).
Qed.

Ltac case_new_Map :=
  match goal with
  | |- context [new_Map ?page ?selector ?options ?n] =>
      let r := fresh "r" in
      let n' := fresh "n" in
      destruct (new_Map page selector options n) as [r n']
  end.

Lemma settle_not_told (r : Result Instance) (v : val) :
  settle r ≠ Rejected (Told v).
Proof. by destruct r. Qed.

(** Whatever the page, the host and the options, [build] does not reject
    with what the position query was rejected with: when the promise is
    rejected, it is with an exception of the engine or the page. *)
Lemma build_rejects_only_raised (page : Page) (nav : Navigator)
    (selector : string) (options : gmap string val) (n : nat) (v : val) :
  outcome (build page nav selector options n).1 ≠ Rejected (Told v).
Proof.
  unfold build, fall_back, bind, ret.
  destruct (has_property options "center" && truthy (get options "center")).
  { case_new_Map. apply settle_not_told. }
  destruct (has_property options "locate" && truthy (get options "locate")).
  - destruct (getCurrentPosition nav) as [position | reason | |]; try done.
    + case_new_Map. destruct r as [i | message | |]; cbv beta iota;
        try done; case_new_Map; apply settle_not_told.
    + case_new_Map. apply settle_not_told.
  - case_new_Map. apply settle_not_told.
Qed.




(** ** Camera *)

Lemma changeCamera_view (i : Instance) (coordinate : Q * Q)
    (zoomLevel : val) :
  let i' := changeCamera i coordinate zoomLevel in
  view (map i')
  = Some (mkLatLng coordinate.1 coordinate.2,
          if truthy zoomLevel then zoomLevel else zoom i)
  ∧ zoom i' = zoom i
  ∧ overlays i' = overlays i
  ∧ layerControl i' = layerControl i
  ∧ layers (map i') = layers (map i)
  ∧ markers (map i') = markers (map i)
  ∧ controls (map i') = controls (map i).
Proof.
  intros i'. subst i'. unfold changeCamera.
  assert (Htruthy : truthy (default_param zoomLevel VNull) = truthy zoomLevel)
    by (by destruct zoomLevel).
  rewrite Htruthy.
  destruct (truthy zoomLevel) eqn:Hzoom; cbn; repeat split; try done.
  by destruct zoomLevel.
Qed.



(** ** Markers *)

Lemma guard_passes (v : val) :
  is_object_tag (typeof (default_param v (VObj ∅)))
  = is_structured v || loosely_object v.
Proof. by destruct v. Qed.

(** C3, the claim as stated fails: [null] is not a structured object, and
    [addMarker] accepts it and returns a marker. *)
Lemma C3_counterexample :
  is_structured VNull = false
  ∧ is_return
      (addMarker plain_instance (VArr [VNum 10; VNum 20]) VNull VNull 10%nat).1
    = true.
Proof. split; reflexivity. Qed.

(** C3, amended: [addMarker] throws [markerOptions must be an object], with
    no engine object (icon, marker, popup) made, exactly when [typeof] of the
    supplied [markerOptions] is not [object], that is for strings, numbers,
    booleans and functions; structured objects pass the check, and so do
    [null], arrays and an omitted ([undefined]) argument. *)
Theorem C3_marker_options_guard (i : Instance)
    (coordinates markerOptions popupOptions : val) (n : nat) :
  if is_structured markerOptions || loosely_object markerOptions then
    (addMarker i coordinates markerOptions popupOptions n).1
    ≠ Throw markerOptions_error
  else
    addMarker i coordinates markerOptions popupOptions n
    = (Throw markerOptions_error, n).
Proof.
  rewrite <- guard_passes. unfold addMarker.
  destruct (is_object_tag (typeof (default_param markerOptions (VObj ∅))));
    [| reflexivity].
  cbn [negb]. unfold bind, ret, createIcon, icon, marker, popup, added.
  cbv beta iota zeta.
  destruct (placement coordinates); cbn [fst]; try done;
    (destruct (truthy (default_param popupOptions VNull));
     [| by destruct (accepted _ _)];
     destruct (is_object_tag (typeof (default_param popupOptions VNull)));
     [| by intros [=]];
     cbn [negb];
     destruct (has_property (own_props (default_param popupOptions VNull))
                 "content");
     [by destruct (accepted _ _) | by intros [=]]).
Qed.




(** ** Overlays *)

Lemma overlays_get_set (o : Overlays) (name : string) (layer : Layer) :
  overlays_get (overlays_set o name layer) name = ReadLayer layer.
Proof.
  unfold overlays_get, overlays_set.
  destruct (String.eqb name "__proto__"); cbn; [done |].
  by rewrite lookup_insert_eq.
Qed.

Lemma own_delete_set (o : Overlays) (name : string) (layer : Layer) :
  own (overlays_delete (overlays_set o name layer) name)
  = delete name (own o).
Proof.
  unfold overlays_delete, overlays_set.
  destruct (String.eqb name "__proto__"); cbn; [done |].
  by rewrite delete_insert_eq.
Qed.

(** For the names that are neither entries nor members of
    [Object.prototype], on an instance whose overlay table still has its
    original prototype, removal does nothing at all. *)
Lemma removeOverlayLayer_absent (i : Instance) (name : string) (n : nat) :
  proto (overlays i) = None →
  own (overlays i) !! name = None →
  inherited name = false →
  removeOverlayLayer i name n = (Some i, n).
Proof.
  intros Hproto Hown Hinherited. unfold removeOverlayLayer, overlays_get.
  rewrite Hown, Hproto, Hinherited.
  destruct (String.eqb name "__proto__") eqn:Hname; [| done].
  apply String.eqb_eq in Hname. by subst name.
Qed.

(** C7 at a name every object inherits: [toString] is not an overlay of a
    newly built instance, and [removeOverlayLayer("toString")] still enters
    the removal branch: the layer-switcher control is taken off the map and a
    new one is put in its place. *)
Theorem C7_inherited_name_rebuilds_control :
  own (overlays plain_instance) !! "toString" = None
  ∧ ∃ i', (removeOverlayLayer plain_instance "toString" 10%nat).1 = Some i'
          ∧ control_id (layerControl plain_instance) = 9%nat
          ∧ control_id (layerControl i') = 10%nat
          ∧ controls (map plain_instance) = [9%nat]
          ∧ controls (map i') = [10%nat]
          ∧ overlays i' = overlays plain_instance.
Proof.
  split; [reflexivity |]. eexists. split; [reflexivity |].
  repeat split; reflexivity.
Qed.

Lemma detach_gone (m : MapState) (id : nat) :
  (id ∉ layers (detach m id))
  ∧ (id ∉ marker_id <$> markers (detach m id)).
Proof.
  unfold detach. cbn [layers markers]. split.
  - rewrite list_elem_of_filter. by intros [? _].
  - rewrite list_elem_of_fmap. intros (k & -> & Hk).
    apply list_elem_of_filter in Hk. by destruct Hk.
Qed.

Lemma removeLayer_gone (m m' : MapState) (l : Layer) :
  removeLayer m l = Some m' →
  (layer_id l ∉ layers m') ∧ (layer_id l ∉ marker_id <$> markers m').
Proof.
  destruct l as [id url options | id members | id]; cbn [removeLayer layer_id].
  - intros [= <-]. apply detach_gone.
  - destruct (bool_decide (id ∈ attached m)) eqn:Hon; [discriminate |].
    intros [= <-]. apply bool_decide_eq_false in Hon.
    unfold attached in Hon. rewrite elem_of_app in Hon. tauto.
  - intros [= <-]. apply detach_gone.
Qed.

(** For a name other than [__proto__], on a table with its original
    prototype, and a layer the model can take off the map: adding the layer
    and removing the name leaves the table as it was less that name, and the
    layer off the map. *)
Lemma add_then_remove (i : Instance) (name : string) (layer : Layer)
    (n : nat) (m1 : MapState) :
  name ≠ "__proto__" →
  proto (overlays i) = None →
  removeLayer (map i) layer = Some m1 →
  ∃ i', removeOverlayLayer (addOverlayLayer i name layer).2 name n
        = (Some i', S n)
        ∧ own (overlays i') = delete name (own (overlays i))
        ∧ (layer_id layer ∉ layers (map i'))
        ∧ (layer_id layer ∉ marker_id <$> markers (map i')).
Proof.
  intros Hname Hproto Hremoved.
  unfold removeOverlayLayer, addOverlayLayer. cbn [snd overlays].
  rewrite overlays_get_set. unfold rebuild. cbn [map overlays].
  rewrite Hremoved.
  assert (Hkept : proto (overlays_delete (overlays_set (overlays i) name layer)
                           name) = None).
  { unfold overlays_delete, overlays_set.
    apply String.eqb_neq in Hname. by rewrite Hname. }
  rewrite Hkept. unfold bind, ret, control_layers. cbv beta iota zeta.
  eexists. split; [reflexivity |].
  cbn [overlays map]. rewrite own_delete_set.
  destruct (removeLayer_gone _ _ _ Hremoved) as [Hlayers Hmarkers].
  by repeat split.
Qed.

(** C8 at the name [__proto__]: the assignment makes no entry and puts the
    layer in the place of the table's prototype; the name then reads the
    layer, and still does after the [delete] of the removal, which has no
    entry to delete; the control is not rebuilt by the model, the table now
    having a layer for prototype. *)
Theorem C8_proto_name_not_restored (i : Instance) (layer : Layer) (n : nat) :
  let i1 := (addOverlayLayer i "__proto__" layer).2 in
  own (overlays i1) = own (overlays i)
  ∧ proto (overlays i1) = Some layer
  ∧ overlays_get (overlays i1) "__proto__" = ReadLayer layer
  ∧ overlays_get (overlays_delete (overlays i1) "__proto__") "__proto__"
    = ReadLayer layer
  ∧ removeOverlayLayer i1 "__proto__" n = (None, n).
Proof.
  intros i1. subst i1. unfold addOverlayLayer. cbn [snd overlays].
  repeat split.
  unfold removeOverlayLayer. cbn [overlays].
  rewrite overlays_get_set. unfold rebuild. cbn [map].
  by destruct (removeLayer (map i) layer).
Qed.

(** * Further properties of the class *)

(** ** [build] *)

Lemma spread_center_same (options : gmap string val) :
  truthy (get options "center") = true →
  spread options {[ "center" := get options "center" ]} = options.
Proof.
  intros Hcenter. apply map_eq. intros name.
  rewrite lookup_with_center. destruct (decide (name = "center")) as [-> |];
    [| done].
  unfold get in *. by destruct (options !! "center").
Qed.



(** ** Camera *)

(** The zoom of the constructor is [options.zoom] unless that is [null] or
    [undefined], 5 then: a zoom of 0 is kept.  It is the zoom a later
    [changeCamera] without zoom level uses. *)
Theorem constructed_zoom_is_camera_default (selector : string)
    (options : gmap string val) (n : nat) (coordinate : Q * Q) :
  let i := (constructor selector options n).1 in
  let z := if nullish (get options "zoom") then VNum 5
           else get options "zoom" in
  zoom i = z
  ∧ view (map (changeCamera i coordinate VUndefined))
    = Some (mkLatLng coordinate.1 coordinate.2, z)
  ∧ view (map (changeCamera i coordinate VNull))
    = Some (mkLatLng coordinate.1 coordinate.2, z).
Proof.
  intros i z.
  assert (Hzoom : zoom i = z).
  { subst i z. unfold constructor. rewrite construct_zoom. reflexivity. }
  split; [exact Hzoom |]. rewrite <- Hzoom. split; reflexivity.
Qed.

(** ** Icons and markers *)

(** In the options of an icon, a field the caller gives wins; failing that,
    the three image fields are the bundled images; every other field is the
    engine's default.  The icon is a new engine object. *)
Theorem createIcon_precedence (options : val) (n : nat) (name : string) :
  let made := createIcon options n in
  icon_options made.1 !! name
  = match spread_props (default_param options (VObj ∅)) !! name with
    | Some v => Some v
    | None =>
        if decide (name = "iconRetinaUrl") then Some markerIcon2x
        else if decide (name = "iconUrl") then Some markerIcon
        else if decide (name = "shadowUrl") then Some markerShadow
        else Icon_Default_options !! name
    end
  ∧ icon_id made.1 = n
  ∧ made.2 = S n.
Proof.
  intros made. subst made. unfold createIcon, icon, spread.
  cbn [fst snd icon_options icon_id]. split; [| done].
  rewrite !lookup_union.
  destruct (spread_props (default_param options (VObj ∅)) !! name) as [v |];
    [by destruct (_ !! name), (_ !! name) |].
  rewrite (left_id_L None _).
  destruct (decide (name = "iconRetinaUrl")) as [-> | H1]; [done |].
  destruct (decide (name = "iconUrl")) as [-> | H2]; [done |].
  destruct (decide (name = "shadowUrl")) as [-> | H3]; [done |].
  rewrite !lookup_insert_ne, lookup_singleton_ne by done.
  by rewrite (left_id_L None _).
Qed.



(** ** Overlays *)

Lemma overlays_get_set_other (o : Overlays) (name name' : string)
    (layer : Layer) :
  name ≠ "__proto__" → name' ≠ name →
  overlays_get (overlays_set o name layer) name' = overlays_get o name'.
Proof.
  intros Hproto Hother. unfold overlays_get, overlays_set.
  apply String.eqb_neq in Hproto. rewrite Hproto. cbn [own proto].
  by rewrite lookup_insert_ne.
Qed.

(** [addOverlayLayer] registers and does not show: reading the name back
    gives the layer, the map is as it was (the layer is not attached by the
    call), and the same control gets one more entry, also when the name was
    registered before.  Unless the name is [__proto__], every other name
    reads as before. *)
Theorem addOverlayLayer_registers (i : Instance) (name : string)
    (layer : Layer) :
  let i' := (addOverlayLayer i name layer).2 in
  overlays_get (overlays i') name = ReadLayer layer
  ∧ map i' = map i
  ∧ control_id (layerControl i') = control_id (layerControl i)
  ∧ control_added (layerControl i')
    = (control_added (layerControl i) ++ [(layer, name)])%list
  ∧ (name ≠ "__proto__" →
     ∀ name', name' ≠ name →
       overlays_get (overlays i') name' = overlays_get (overlays i) name').
Proof.
  intros i'. subst i'. unfold addOverlayLayer.
  cbn [snd overlays map layerControl].
  split; [apply overlays_get_set |]. repeat split.
  intros Hproto name' Hother. by apply overlays_get_set_other.
Qed.

Lemma removeLayer_single (m : MapState) (l : Layer) :
  is_group l = false → removeLayer m l = Some (detach m (layer_id l)).
Proof. by destruct l. Qed.

Lemma removeLayer_frame (m m' : MapState) (l : Layer) :
  removeLayer m l = Some m' →
  container m' = container m
  ∧ map_options m' = map_options m
  ∧ view m' = view m
  ∧ controls m' = controls m
  ∧ listeners m' = listeners m
  ∧ markers m' `sublist_of` markers m.
Proof.
  destruct l as [id url options | id members | id]; cbn [removeLayer];
    try (intros [= <-]; cbn; repeat split; apply sublist_filter).
  destruct (bool_decide (id ∈ attached m)); [discriminate |].
  by intros [= <-].
Qed.

(** What [rebuild] gives when it is carried through. *)
Lemma rebuild_done (i : Instance) (name : string) (removed : option Layer)
    (n : nat) (i' : Instance) (n' : nat) :
  rebuild i name removed n = (Some i', n') →
  ∃ m1,
    match removed with
    | Some l => removeLayer (map i) l
    | None => Some (map i)
    end = Some m1
    ∧ proto (overlays i) = None
    ∧ n' = S n
    ∧ i' = {| zoom := zoom i;
              map := control_addTo
                       (mkControl n (baseLayers i)
                          (overlays_delete (overlays i) name) [])
                       (control_remove (layerControl i) m1);
              baseLayers := baseLayers i;
              overlays := overlays_delete (overlays i) name;
              layerControl :=
                mkControl n (baseLayers i)
                  (overlays_delete (overlays i) name) [];
              mapTilerKey := mapTilerKey i |}.
Proof.
  unfold rebuild.
  destruct (match removed with
            | Some l => removeLayer (map i) l
            | None => Some (map i)
            end) as [m1 |]; [| discriminate].
  cbn [overlays_delete proto].
  destruct (proto (overlays i)) as [l |] eqn:Hproto; [discriminate |].
  unfold bind, ret, control_layers. intros [= <- <-]. by exists m1.
Qed.

Lemma removeOverlayLayer_entry (i : Instance) (name : string) (l : Layer)
    (n : nat) (m1 : MapState) :
  name ≠ "__proto__" →
  proto (overlays i) = None →
  own (overlays i) !! name = Some l →
  removeLayer (map i) l = Some m1 →
  removeOverlayLayer i name n
  = (Some {| zoom := zoom i;
             map := control_addTo
                      (mkControl n (baseLayers i)
                         (overlays_delete (overlays i) name) [])
                      (control_remove (layerControl i) m1);
             baseLayers := baseLayers i;
             overlays := overlays_delete (overlays i) name;
             layerControl :=
               mkControl n (baseLayers i)
                 (overlays_delete (overlays i) name) [];
             mapTilerKey := mapTilerKey i |}, S n).
Proof.
  intros Hname Hproto Hown Hremoved.
  unfold removeOverlayLayer, overlays_get, rebuild.
  apply String.eqb_neq in Hname. rewrite Hname, Hown, Hremoved.
  cbn [overlays_delete proto]. by rewrite Hproto.
Qed.

(** On a table with its original prototype, removing a name (other than
    [__proto__]) that is registered for a single layer, not a group, touches
    that overlay only: the entry is gone and the layer is off the map, as a
    layer or as a marker; every other entry, every other layer and every
    other marker stay; and the control is a new one made from the base
    layers and the remaining overlays. *)
Theorem removeOverlayLayer_registered (i : Instance) (name : string)
    (l : Layer) (n : nat) :
  name ≠ "__proto__" →
  proto (overlays i) = None →
  own (overlays i) !! name = Some l →
  is_group l = false →
  ∃ i', removeOverlayLayer i name n = (Some i', S n)
        ∧ own (overlays i') = delete name (own (overlays i))
        ∧ (∀ id, id ∈ layers (map i') ↔ id ∈ layers (map i) ∧ id ≠ layer_id l)
        ∧ (∀ k, k ∈ markers (map i')
                ↔ k ∈ markers (map i) ∧ marker_id k ≠ layer_id l)
        ∧ layerControl i' = mkControl n (baseLayers i) (overlays i') []
        ∧ baseLayers i' = baseLayers i
        ∧ zoom i' = zoom i
        ∧ view (map i') = view (map i).
Proof.
  intros Hname Hproto Hown Hsingle. eexists. split.
  - apply removeOverlayLayer_entry with (l := l); try done.
    by apply removeLayer_single.
  - cbn [overlays map layerControl baseLayers zoom control_addTo
         control_remove with_controls detach layers view markers
         overlays_delete own].
    split; [done |].
    split; [intros id; rewrite list_elem_of_filter; tauto |].
    split; [intros k; rewrite list_elem_of_filter; tauto | done].
Qed.

(** [removeOverlayLayer_registered] after one overlay was added and shown. *)
Lemma removeOverlayLayer_registered_witness :
  let i := with_map (addOverlayLayer plain_instance "A" (Foreign 42)).2
             (addLayer (map plain_instance) 42) in
  ∃ i', removeOverlayLayer i "A" 10%nat = (Some i', 11%nat)
        ∧ own (overlays i') = delete "A" (own (overlays i))
        ∧ (∀ id, id ∈ layers (map i') ↔ id ∈ layers (map i) ∧ id ≠ 42%nat)
        ∧ (∀ k, k ∈ markers (map i')
                ↔ k ∈ markers (map i) ∧ marker_id k ≠ 42%nat)
        ∧ layerControl i' = mkControl 10 (baseLayers i) (overlays i') []
        ∧ baseLayers i' = baseLayers i
        ∧ zoom i' = zoom i
        ∧ view (map i') = view (map i).
Proof.
  intros i.
  apply (removeOverlayLayer_registered i "A" (Foreign 42) 10%nat);
    [discriminate | reflexivity | reflexivity | reflexivity].
Defined.

(** Registering a second layer under a name forgets the first without
    releasing it.  On a table with its original prototype, for a name other
    than [__proto__] and a second layer that is a single layer: after the
    name is removed, the second layer is off the map, while the first, if it
    was showing and is another object, is still on the map and is known
    neither to the overlay table nor to the new control. *)
Theorem overwritten_layer_stays_attached (i : Instance) (name : string)
    (l1 l2 : Layer) (n : nat) :
  name ≠ "__proto__" →
  proto (overlays i) = None →
  is_group l2 = false →
  layer_id l1 ∈ layers (map i) →
  layer_id l1 ≠ layer_id l2 →
  let i2 := (addOverlayLayer (addOverlayLayer i name l1).2 name l2).2 in
  ∃ i', removeOverlayLayer i2 name n = (Some i', S n)
        ∧ own (overlays i') !! name = None
        ∧ layer_id l1 ∈ layers (map i')
        ∧ (layer_id l2 ∉ layers (map i'))
        ∧ control_added (layerControl i') = []
        ∧ own (control_overlays (layerControl i')) !! name = None.
Proof.
  intros Hname Hproto Hsingle Hshown Hdistinct i2. subst i2.
  assert (Hname' : String.eqb name "__proto__" = false)
    by (by apply String.eqb_neq).
  eexists. split.
  - apply removeOverlayLayer_entry with (l := l2); try done.
    + unfold addOverlayLayer, overlays_set. cbn [snd overlays].
      by rewrite Hname'.
    + unfold addOverlayLayer, overlays_set. cbn [snd overlays].
      rewrite Hname'. cbn [own]. by rewrite lookup_insert_eq.
    + by apply removeLayer_single.
  - cbn [overlays map layerControl control_added control_overlays
         control_addTo control_remove with_controls detach layers
         overlays_delete own addOverlayLayer snd].
    rewrite !list_elem_of_filter, lookup_delete_eq.
    repeat split; try done. by intros [? _].
Qed.

(** [overwritten_layer_stays_attached] for two layers registered as "A",
    the first of them showing. *)
Lemma overwritten_layer_stays_attached_witness :
  let i := with_map plain_instance (addLayer (map plain_instance) 41) in
  let i2 := (addOverlayLayer (addOverlayLayer i "A" (Foreign 41)).2 "A"
               (Foreign 42)).2 in
  ∃ i', removeOverlayLayer i2 "A" 10%nat = (Some i', 11%nat)
        ∧ own (overlays i') !! "A" = None
        ∧ 41%nat ∈ layers (map i')
        ∧ (42%nat ∉ layers (map i'))
        ∧ control_added (layerControl i') = []
        ∧ own (control_overlays (layerControl i')) !! "A" = None.
Proof.
  intros i.
  apply (overwritten_layer_stays_attached i "A" (Foreign 41) (Foreign 42)
           10%nat);
    [discriminate | reflexivity | reflexivity | apply list_elem_of_here
    | discriminate].
Defined.

Lemma inherited_proto : inherited "__proto__" = true.
Proof. reflexivity. Qed.

(** On an overlay table with its original prototype, and for a name that is
    not a member of [Object.prototype], removal is idempotent: whatever the
    first call did, a second changes nothing, not even the control. *)
Theorem removeOverlayLayer_idempotent (i : Instance) (name : string)
    (n : nat) (i' : Instance) (n' : nat) :
  proto (overlays i) = None →
  inherited name = false →
  removeOverlayLayer i name n = (Some i', n') →
  removeOverlayLayer i' name n' = (Some i', n').
Proof.
  intros Hproto Hinherited Hfirst.
  assert (Hname : String.eqb name "__proto__" = false).
  { apply String.eqb_neq. intros ->. by rewrite inherited_proto in Hinherited. }
  assert (Hgone : proto (overlays i') = None
                  ∧ own (overlays i') !! name = None).
  { revert Hfirst. unfold removeOverlayLayer, overlays_get.
    rewrite Hname, Hproto, Hinherited.
    destruct (own (overlays i) !! name) as [l |] eqn:Hown.
    - intros Hrebuild.
      destruct (rebuild_done _ _ _ _ _ _ Hrebuild) as (m1 & _ & _ & _ & ->).
      cbn [overlays overlays_delete proto own].
      by rewrite lookup_delete_eq.
    - by intros [= <- <-]. }
  destruct Hgone as [Hproto' Hown'].
  by apply removeOverlayLayer_absent.
Qed.

(** [removeOverlayLayer_idempotent] after "A" was added to a new instance. *)
Lemma removeOverlayLayer_idempotent_witness :
  let i := (addOverlayLayer plain_instance "A" (Foreign 42)).2 in
  let first := removeOverlayLayer i "A" 10%nat in
  ∃ i', first = (Some i', 11%nat)
        ∧ removeOverlayLayer i' "A" 11%nat = (Some i', 11%nat).
Proof.
  intros i first. subst first.
  pose proof (removeOverlayLayer_entry i "A" (Foreign 42) 10%nat
                (detach (map i) 42) ltac:(discriminate) eq_refl eq_refl
                eq_refl) as Hfirst.
  eexists. split; [exact Hfirst |].
  apply (removeOverlayLayer_idempotent i "A" 10%nat);
    [reflexivity | reflexivity | exact Hfirst].
Defined.

(** ** What every sequence of calls keeps *)

Section Invariants.

Variable P : Instance * nat → Prop.
Hypothesis step : ∀ c s s', P s → perform c s = Some s' → P s'.

Lemma run_invariant (calls : list Call) :
  ∀ s s', P s → run calls s = Some s' → P s'.
Proof using step.
  induction calls as [| c rest IH]; intros s s' Hs Hrun; cbn in Hrun.
  - by injection Hrun as <-.
  - destruct (perform c s) as [s1 |] eqn:Hperform; [| discriminate].
    eapply IH; [| exact Hrun]. by eapply step.
Qed.

End Invariants.

Lemma addMarker_cases (i : Instance)
    (coordinates markerOptions popupOptions : val) (n : nat) :
  let '(r, n') := addMarker i coordinates markerOptions popupOptions n in
  (n ≤ n')%nat
  ∧ match r with
    | Return (k, i') => i' = with_map i (addMarkerTo (map i) k)
    | _ => True
    end.
Proof.
  unfold addMarker.
  destruct (is_object_tag (typeof (default_param markerOptions (VObj ∅))));
    [| by cbn].
  cbn [negb]. unfold bind, ret, createIcon, icon, marker, popup, added.
  cbv beta iota zeta.
  destruct (placement coordinates); try (split; [lia | done]);
    (destruct (truthy (default_param popupOptions VNull));
     [ destruct (is_object_tag (typeof (default_param popupOptions VNull)));
       [| split; [cbn; lia | done]];
       cbn [negb];
       destruct (has_property (own_props (default_param popupOptions VNull))
                   "content"); [| split; [cbn; lia | done]];
       cbn [negb]
     | ];
     (destruct (accepted coordinates (default_param markerOptions (VObj ∅)));
      split; (lia || done))).
Qed.

Lemma removeOverlayLayer_cases (i : Instance) (name : string) (n : nat)
    (i' : Instance) (n' : nat) :
  removeOverlayLayer i name n = (Some i', n') →
  (i' = i ∧ n' = n) ∨ (∃ removed, rebuild i name removed n = (Some i', n')).
Proof.
  unfold removeOverlayLayer.
  destruct (overlays_get (overlays i) name) as [l | | | l].
  - intros Hrebuild. right. by eexists.
  - destruct (String.eqb name "__proto__"); [discriminate |].
    intros Hrebuild. right. by eexists.
  - intros [= <- <-]. by left.
  - discriminate.
Qed.

(** What one call of [perform] can do to an instance: nothing, what
    [changeCamera], [addOverlayLayer] or [addMapEventListener] do, put one
    marker on the map, or carry [rebuild] through. *)
Lemma perform_cases (c : Call) (i i' : Instance) (n n' : nat) :
  perform c (i, n) = Some (i', n') →
  (n ≤ n')%nat
  ∧ (i' = i
     ∨ (∃ coordinate zoomLevel, i' = changeCamera i coordinate zoomLevel)
     ∨ (∃ k, i' = with_map i (addMarkerTo (map i) k))
     ∨ (∃ name layer, i' = (addOverlayLayer i name layer).2)
     ∨ (∃ name removed, rebuild i name removed n = (Some i', n'))
     ∨ (∃ eventName callback, i' = addMapEventListener i eventName callback)).
Proof.
  destruct c as [coordinate zoomLevel | options
                | coordinates markerOptions popupOptions
                | name layer | name | eventName callback]; cbn [perform].
  - intros [= <- <-]. split; [lia |]. right. left. by eexists _, _.
  - intros [= <- <-]. split; [cbn; lia |]. by left.
  - pose proof (addMarker_cases i coordinates markerOptions popupOptions n)
      as Hcases.
    destruct (addMarker i coordinates markerOptions popupOptions n)
      as [[[k i1] | message | |] n1]; destruct Hcases as [Hle Hi1];
      try discriminate; intros [= <- <-]; (split; [lia |]);
      [right; right; left; by exists k | by left | by left].
  - intros [= <- <-]. split; [lia |]. do 3 right. left. by eexists _, _.
  - destruct (removeOverlayLayer i name n) as [[i1 |] n1] eqn:Hremove;
      [| discriminate].
    intros [= <- <-].
    destruct (removeOverlayLayer_cases _ _ _ _ _ Hremove)
      as [[-> ->] | [removed Hrebuild]]; [split; [lia | by left] |].
    destruct (rebuild_done _ _ _ _ _ _ Hrebuild) as (m1 & _ & _ & -> & _).
    split; [lia |]. do 4 right. left. by eexists _, _.
  - intros [= <- <-]. split; [lia |]. do 5 right. by eexists _, _.
Qed.

Lemma perform_keeps_construction (c : Call) (s s' : Instance * nat) :
  perform c s = Some s' →
  zoom s'.1 = zoom s.1
  ∧ mapTilerKey s'.1 = mapTilerKey s.1
  ∧ baseLayers s'.1 = baseLayers s.1
  ∧ container (map s'.1) = container (map s.1)
  ∧ map_options (map s'.1) = map_options (map s.1).
Proof.
  destruct s as [i n], s' as [i' n']. intros Hperform.
  destruct (perform_cases _ _ _ _ _ Hperform)
    as (_ & [-> | [(coordinate & zoomLevel & ->) | [(k & ->)
        | [(name & layer & ->) | [(name & removed & Hrebuild)
        | (eventName & callback & ->)]]]]]); cbn [fst]; try done.
  - unfold changeCamera.
    by destruct (negb (truthy (default_param zoomLevel VNull))).
  - destruct (rebuild_done _ _ _ _ _ _ Hrebuild)
      as (m1 & Hm1 & _ & _ & ->).
    cbn [zoom mapTilerKey baseLayers map control_addTo control_remove
         with_controls container map_options].
    destruct removed as [l |].
    + destruct (removeLayer_frame _ _ _ Hm1) as (-> & -> & _). done.
    + by injection Hm1 as <-.
Qed.



Lemma constructor_one_control (selector : string)
    (options : gmap string val) (n : nat) :
  one_control (constructor selector options n).
Proof.
  unfold one_control. run_constructor. cbn. repeat split. lia.
Qed.

Lemma perform_one_control (c : Call) (s s' : Instance * nat) :
  one_control s → perform c s = Some s' → one_control s'.
Proof.
  destruct s as [i n], s' as [i' n']. unfold one_control. cbn [fst snd].
  intros (Hcontrols & Hfresh & Hbase) Hperform.
  destruct (perform_cases _ _ _ _ _ Hperform)
    as (Hle & [-> | [(coordinate & zoomLevel & ->) | [(k & ->)
        | [(name & layer & ->) | [(name & removed & Hrebuild)
        | (eventName & callback & ->)]]]]]);
    try (cbn; repeat split; try done; lia).
  - unfold changeCamera.
    destruct (negb (truthy (default_param zoomLevel VNull)));
      cbn; repeat split; try done; lia.
  - destruct (rebuild_done _ _ _ _ _ _ Hrebuild)
      as (m1 & Hm1 & _ & -> & ->).
    cbn [map layerControl baseLayers control_id control_base control_addTo
         control_remove with_controls controls].
    assert (Hsame : controls m1 = controls (map i)).
    { destruct removed as [l |].
      - by destruct (removeLayer_frame _ _ _ Hm1) as (_ & _ & _ & -> & _).
      - by injection Hm1 as <-. }
    rewrite Hsame, Hcontrols.
    rewrite filter_cons_False by (by intros ?). rewrite filter_nil.
    repeat split. lia.
Qed.



Lemma perform_overlays_listed (c : Call) (s s' : Instance * nat) :
  overlays_listed s.1 → perform c s = Some s' → overlays_listed s'.1.
Proof.
  destruct s as [i n], s' as [i' n']. unfold overlays_listed. cbn [fst].
  intros Hlisted Hperform.
  destruct (perform_cases _ _ _ _ _ Hperform)
    as (_ & [-> | [(coordinate & zoomLevel & ->) | [(k & ->)
        | [(name & layer & ->) | [(name & removed & Hrebuild)
        | (eventName & callback & ->)]]]]]); try done.
  - unfold changeCamera.
    by destruct (negb (truthy (default_param zoomLevel VNull))).
  - intros name' l. unfold addOverlayLayer, overlays_set, addOverlay.
    cbn [snd overlays layerControl control_overlays control_added].
    destruct (String.eqb name "__proto__") eqn:Hproto; cbn [own].
    + intros Hown. destruct (Hlisted name' l Hown) as [? | Hadded];
        [by left | right]. apply elem_of_app. by left.
    + destruct (decide (name' = name)) as [-> | Hother].
      * rewrite lookup_insert_eq. intros [= ->]. right.
        apply elem_of_app. right. apply list_elem_of_here.
      * rewrite lookup_insert_ne by done. intros Hown.
        destruct (Hlisted name' l Hown) as [? | Hadded]; [by left | right].
        apply elem_of_app. by left.
  - destruct (rebuild_done _ _ _ _ _ _ Hrebuild) as (m1 & _ & _ & _ & ->).
    intros name' l. cbn. by left.
Qed.



(** ** Base layers and the key *)

(** Every tile source of every base layer of a constructed instance carries
    the resolved key, the caller's when one was given, and the fixed tile
    parameters: no layer is left on the built-in key. *)
Theorem base_layers_use_resolved_key (selector : string)
    (options : gmap string val) (n : nat) :
  let i := (constructor selector options n).1 in
  map_Forall
    (fun _ l =>
       Forall (fun t => (∃ before, t.1 = Keyed before (mapTilerKey i))
                        ∧ fixed_parameters t.2)
         (tiles l))
    (baseLayers i).
Proof.
  intros i. subst i. run_constructor.
  rewrite resolve_key_default. cbn [fst negb baseLayers mapTilerKey].
  repeat apply map_Forall_insert_2;
    first
      [ apply map_Forall_empty
      | cbn [tiles List.flat_map app];
        repeat (apply Forall_cons; split;
                [split; [by eexists | apply provider_options_fixed] |]);
        apply Forall_nil_2 ].
Qed.

(** ** Removal of names that are not registered *)

(** On an overlay table with its original prototype, removing a name that is
    neither registered nor a member of [Object.prototype] does nothing: the
    instance, its control and the engine's counter are as before. *)
Theorem removeOverlayLayer_missing_is_noop (i : Instance) (name : string)
    (n : nat) :
  proto (overlays i) = None →
  own (overlays i) !! name = None →
  inherited name = false →
  removeOverlayLayer i name n = (Some i, n).
Proof.
  intros Hproto Hown Hinherited.
  assert (Hread : overlays_get (overlays i) name = ReadUndefined).
  { unfold overlays_get. rewrite Hown, Hproto, Hinherited.
    destruct (String.eqb name "__proto__") eqn:Hname; [| done].
    apply String.eqb_eq in Hname. subst name.
    by rewrite inherited_proto in Hinherited. }
  unfold removeOverlayLayer. by rewrite Hread.
Qed.

(** [removeOverlayLayer_missing_is_noop] at
    [removeOverlayLayer("missing")] on a new instance. *)
Lemma removeOverlayLayer_missing_is_noop_witness :
  removeOverlayLayer plain_instance "missing" 10%nat
  = (Some plain_instance, 10%nat).
Proof.
  apply (removeOverlayLayer_missing_is_noop plain_instance "missing" 10%nat);
    reflexivity.
Defined.

(** For an unregistered name that every object inherits, any but
    [__proto__] ([constructor], [toString], [valueOf], ...), on a table with
    its original prototype, the removal branch runs on the inherited value:
    no layer leaves the map and the overlay table is unchanged, but the
    control is taken off and a new one, made from the same tables, is put in
    its place. *)
Theorem removeOverlayLayer_inherited_name (i : Instance) (name : string)
    (n : nat) :
  proto (overlays i) = None →
  own (overlays i) !! name = None →
  inherited name = true →
  name ≠ "__proto__" →
  ∃ i', removeOverlayLayer i name n = (Some i', S n)
        ∧ overlays i' = overlays i
        ∧ layers (map i') = layers (map i)
        ∧ markers (map i') = markers (map i)
        ∧ layerControl i' = mkControl n (baseLayers i) (overlays i) []
        ∧ controls (map i')
          = n :: filter (fun id => id ≠ control_id (layerControl i))
                   (controls (map i)).
Proof.
  intros Hproto Hown Hinherited Hname.
  apply String.eqb_neq in Hname.
  assert (Hread : overlays_get (overlays i) name = ReadBuiltin).
  { unfold overlays_get. by rewrite Hname, Hproto, Hown, Hinherited. }
  assert (Hsame : overlays_delete (overlays i) name = overlays i).
  { unfold overlays_delete. rewrite delete_id by done.
    by destruct (overlays i). }
  unfold removeOverlayLayer. rewrite Hread, Hname.
  unfold rebuild. rewrite Hsame, Hproto.
  unfold bind, ret, control_layers. cbv beta iota zeta.
  eexists. split; [reflexivity |]. by cbn.
Qed.

(** [removeOverlayLayer_inherited_name] at [removeOverlayLayer("constructor")]
    on a new instance. *)
Lemma removeOverlayLayer_inherited_name_witness :
  ∃ i', removeOverlayLayer plain_instance "constructor" 10%nat
        = (Some i', 11%nat)
        ∧ overlays i' = overlays plain_instance
        ∧ layers (map i') = layers (map plain_instance)
        ∧ markers (map i') = markers (map plain_instance)
        ∧ layerControl i'
          = mkControl 10 (baseLayers plain_instance)
              (overlays plain_instance) []
        ∧ controls (map i')
          = 10%nat
            :: filter (fun id => id ≠ control_id (layerControl plain_instance))
                 (controls (map plain_instance)).
Proof.
  apply (removeOverlayLayer_inherited_name plain_instance "constructor"
           10%nat); [reflexivity | reflexivity | reflexivity | discriminate].
Defined.
